(** * The KYC wizard of [src/pages/index.tsx]

    A shallow embedding of the control logic of the [KycPage] component:
    the Yup schemas behind [formik.validateForm], the [useState] cells of
    the page, the handlers [handleNext], [handleBack] and [onSubmit], and
    the [useFilePreview] hook.

    Conventions.
    - A JavaScript string is a [string]; [File | null] is [option File],
      a [File] being known only by its identity.
    - The component's [useState] cells and Formik's state are the fields
      of the record [State]; a handler is a function on [State] that also
      returns the list of effects it performs (remote calls, toasts).
    - An [async] handler is cut at its [await axios.post(...)]: the part
      before it is [..._start], the parts after it are [..._resolved]
      (the promise fulfils) and [..._rejected] (it throws). The earlier
      [await formik.validateForm()] is no cut: validation is local, and
      it is taken to finish before the next event.
    - Formik, Yup, axios and React are the environment; what the page
      relies on of them is written out where it is used. *)

From Stdlib Require Import ZArith String Ascii List Bool Lia.
From stdpp Require Import gmap strings list fin_maps.
Import ListNotations.
Local Open Scope string_scope.
Local Open Scope Z_scope.
#[local] Set Warnings "-clear-no-such-hyp".

(** ** JavaScript helpers *)

(** [a || b] on strings: the empty string is falsy. *)
Definition or_str (a b : string) : string :=
  if decide (a = "") then b else a.

(** [a || b] where [a] may be [undefined] (an absent property or a broken
    [?.] chain). *)
Definition or_opt (a : option string) (b : string) : string :=
  match a with
  | Some s => or_str s b
  | None => b
  end.

(** ** Regular expressions

    The two patterns of the schema use literals, the digit class and
    bounded repetition only. [residuals r s] lists every suffix of [s]
    left after [r] has matched a prefix of it. *)

Inductive regex : Type :=
  | Lit (c : ascii)
  | Digit
  | Cat (r1 r2 : regex)
  | Repeat (lo hi : nat) (r : regex).

(** [\d] and [[0-9]]: the ten ASCII digits. *)
Definition is_digit (c : ascii) : bool :=
  ((48 <=? nat_of_ascii c) && (nat_of_ascii c <=? 57))%nat.

Definition eat (p : ascii -> bool) (s : string) : list string :=
  match s with
  | String c t => if p c then [t] else []
  | EmptyString => []
  end.

(** [f{lo,hi}]: between [lo] and [hi] consecutive matches of [f]. *)
Fixpoint between (f : string -> list string) (lo hi : nat) (s : string)
  : list string :=
  (if (lo =? 0)%nat then [s] else []) ++
  match hi with
  | O => []
  | S hi' => flat_map (between f (Nat.pred lo) hi') (f s)
  end.

Fixpoint residuals (r : regex) (s : string) : list string :=
  match r with
  | Lit c => eat (Ascii.eqb c) s
  | Digit => eat is_digit s
  | Cat r1 r2 => flat_map (residuals r2) (residuals r1 s)
  | Repeat lo hi r' => between (residuals r') lo hi s
  end.

(** [/^r$/.test(s)]: some match of [r] consumes the whole of [s]. *)
Definition test_anchored (r : regex) (s : string) : bool :=
  existsb (String.eqb "") (residuals r s).

Fixpoint lits (s : string) (k : regex) : regex :=
  match s with
  | String c t => Cat (Lit c) (lits t k)
  | EmptyString => k
  end.

(** [/^GHA-\d{9}-\d$/] *)
Definition ghana_card_re : regex :=
  lits "GHA-" (Cat (Repeat 9 9 Digit) (Cat (Lit "-") Digit)).

(** [/^[0-9]{6,15}$/] *)
Definition momo_number_re : regex := Repeat 6 15 Digit.

(** ** Form values *)

Inductive File : Type := Blob (id : nat).

#[global] Instance File_eq_dec : EqDecision File.
Proof. solve_decision. Defined.

Module Momo.
Record t : Type := mk { country_code : string; number : string }.
End Momo.

Record KycFormValues : Type := mkValues {
  number : string;
  ghanaCardFront : option File;
  ghanaCardBack : option File;
  momo : Momo.t;
  selfie : option File
}.

Definition KYC_STEPS : list string :=
  ["Ghana Card"; "MoMo Verification"; "Selfie Upload"].

Definition initialValues : KycFormValues :=
  {| number := "";
     ghanaCardFront := None;
     ghanaCardBack := None;
     momo := {| Momo.country_code := "+233"; Momo.number := "" |};
     selfie := None |}.

(** ** Validation: the Yup schemas as Formik runs them

    Formik hands the schema a copy of the values in which every empty
    string is [undefined] ([prepare]); it validates with
    [abortEarly: false] and keeps, for each path, the first message
    ([yupToFormErrors]). A test is a function from the prepared value to
    the message it reports, if any. *)

Definition prepare (s : string) : option string :=
  if decide (s = "") then None else Some s.

Definition test (A : Type) : Type := A -> option string.

(** [.required(msg)]: the value is neither [undefined] nor [null] (nor,
    for a string, empty). *)
Definition required {A : Type} (msg : string) : test (option A) :=
  fun v => match v with
           | Some _ => None
           | None => Some msg
           end.

(** [.matches(re, msg)]: an absent value passes. *)
Definition matches (re : regex) (msg : string) : test (option string) :=
  fun v => match v with
           | Some s => if test_anchored re s then None else Some msg
           | None => None
           end.

(** The errors of one field, in the order of its tests. *)
Definition field {A : Type} (path : string) (v : A) (tests : list (test A))
  : list (string * string) :=
  omap (fun t => pair path <$> t v) tests.

(** [validationSchema[step]] applied to the values: Yup's list of
    (path, message). Outside the array there is no schema, and Formik
    then reports no error. *)
Definition validationSchema (step : Z) (v : KycFormValues)
  : list (string * string) :=
  match step with
  | 0 =>
      field "number" (prepare (number v))
        [required "Ghana Card Number is required";
         matches ghana_card_re "Invalid Ghana Card Number format"] ++
      field "ghanaCardFront" (ghanaCardFront v)
        [required "Front image is required"] ++
      field "ghanaCardBack" (ghanaCardBack v)
        [required "Back image is required"]
  | 1 =>
      field "momo.country_code" (prepare (Momo.country_code (momo v)))
        [required "Country code is required"] ++
      field "momo.number" (prepare (Momo.number (momo v)))
        [matches momo_number_re "Invalid phone number";
         required "Phone number is required"]
  | 2 =>
      field "selfie" (selfie v) [required "Selfie is required"]
  | _ => []
  end.

(** [FormikErrors], keyed by field path. The object Formik builds nests
    the two [momo] paths under one [momo] key, so it has no key exactly
    when this map is empty. *)
Abbreviation FormikErrors := (gmap string string).

Definition yupToFormErrors (inner : list (string * string)) : FormikErrors :=
  fold_left
    (fun errors e =>
       match errors !! e.1 with
       | Some _ => errors
       | None => <[e.1 := e.2]> errors
       end)
    inner ∅.

(** [formik.validateForm()] with [validationSchema[step]]. *)
Definition validate (step : Z) (v : KycFormValues) : FormikErrors :=
  yupToFormErrors (validationSchema step v).

(** The fields each step declares. *)
Definition step_fields (step : Z) : gset string :=
  match step with
  | 0 => {["number"; "ghanaCardFront"; "ghanaCardBack"]}
  | 1 => {["momo.country_code"; "momo.number"]}
  | 2 => {["selfie"]}
  | _ => ∅
  end.


(** ** The remote service, as axios presents it

    A fulfilled call carries [res.data], which may be [null]; its
    properties may be missing. A rejected call throws. *)

Module Verify.
(** The body of [/api/verify-ghana-card]; a missing [verified] is
    falsy. *)
Record t : Type := mk { verified : bool; message : option string }.
End Verify.

Module Kyc.
(** The body of [/api/complete-kyc]. *)
Record t : Type := mk { message : option string; full_name : option string }.
End Kyc.

Module Err.
(** The body of an error response. *)
Record t : Type := mk { message : option string }.
End Err.

Record AxiosResponse (A : Type) : Type := mkResponse { data : option A }.
Arguments mkResponse {A} _.
Arguments data {A} _.

Inductive Thrown : Type :=
  | AxiosError (response : option (AxiosResponse Err.t)) (message : string)
  | Error (message : string)
  | NotAnError.

(** The body shared by the two [catch] blocks, [message] being the
    text the block starts from:
    [err.response?.data?.message || err.message || message] for an axios
    error, [err.message] for another [Error], [message] otherwise. *)
Definition catch_message (message : string) (err : Thrown) : string :=
  match err with
  | AxiosError response err_message =>
      or_opt ((response ≫= data) ≫= Err.message)
        (or_str err_message message)
  | Error err_message => err_message
  | NotAnError => message
  end.

(** What [res.data.message] throws when [res.data] is [null] (the text
    is the engine's). *)
Definition null_data_TypeError : Thrown :=
  Error "Cannot read properties of null (reading 'message')".

Inductive Part : Type :=
  | Text (s : string)
  | Binary (f : File).

Abbreviation FormData := (list (string * Part)).

Inductive Effect : Type :=
  | PostVerifyGhanaCard (number : string)
  | PostCompleteKyc (formData : FormData)
  | ToastSuccess (msg : string)
  | ToastError (msg : string).

(** ** The state of the page *)

Record Touched : Type := mkTouched {
  t_number : bool;
  t_ghanaCardFront : bool;
  t_ghanaCardBack : bool;
  t_momo_country_code : bool;
  t_momo_number : bool;
  t_selfie : bool
}.

Record Formik : Type := mkFormik {
  values : KycFormValues;
  errors : FormikErrors;
  touched : Touched
}.

(** The [useState] cells of [KycPage], Formik's state, and [submitting]:
    the [values] arguments of the [onSubmit] calls that are suspended at
    their [await], oldest first. Nothing in Formik or in the page keeps a
    second [onSubmit] from starting while one is suspended. *)
Record State : Type := mkState {
  currentStep : Z;
  loading : bool;
  error : string;
  success : string;
  ghanaCardVerified : bool;
  verifyingGhanaCard : bool;
  ghanaCardError : string;
  showSuccessScreen : bool;
  fullName : string;
  submittedValues : option KycFormValues;
  formik : Formik;
  submitting : list KycFormValues
}.

Definition setCurrentStep (f : Z -> Z) (st : State) : State :=
  let 'mkState a b c d e g h i j k l m := st in mkState (f a) b c d e g h i j k l m.
Definition setLoading (x : bool) (st : State) : State :=
  let 'mkState a _ c d e g h i j k l m := st in mkState a x c d e g h i j k l m.
Definition setError (x : string) (st : State) : State :=
  let 'mkState a b _ d e g h i j k l m := st in mkState a b x d e g h i j k l m.
Definition setSuccess (x : string) (st : State) : State :=
  let 'mkState a b c _ e g h i j k l m := st in mkState a b c x e g h i j k l m.
Definition setGhanaCardVerified (x : bool) (st : State) : State :=
  let 'mkState a b c d _ g h i j k l m := st in mkState a b c d x g h i j k l m.
Definition setVerifyingGhanaCard (x : bool) (st : State) : State :=
  let 'mkState a b c d e _ h i j k l m := st in mkState a b c d e x h i j k l m.
Definition setGhanaCardError (x : string) (st : State) : State :=
  let 'mkState a b c d e g _ i j k l m := st in mkState a b c d e g x i j k l m.
Definition setShowSuccessScreen (x : bool) (st : State) : State :=
  let 'mkState a b c d e g h _ j k l m := st in mkState a b c d e g h x j k l m.
Definition setFullName (x : string) (st : State) : State :=
  let 'mkState a b c d e g h i _ k l m := st in mkState a b c d e g h i x k l m.
Definition setSubmittedValues (x : option KycFormValues) (st : State) : State :=
  let 'mkState a b c d e g h i j _ l m := st in mkState a b c d e g h i j x l m.
Definition setFormik (f : Formik -> Formik) (st : State) : State :=
  let 'mkState a b c d e g h i j k l m := st in mkState a b c d e g h i j k (f l) m.
Definition setSubmitting (x : list KycFormValues) (st : State) : State :=
  let 'mkState a b c d e g h i j k l _ := st in mkState a b c d e g h i j k l x.

(** Formik's own setters; each builds a new values object. *)
Definition setValues (f : KycFormValues -> KycFormValues) (fk : Formik) : Formik :=
  {| values := f (values fk); errors := errors fk; touched := touched fk |}.
Definition setErrors (e : FormikErrors) (fk : Formik) : Formik :=
  {| values := values fk; errors := e; touched := touched fk |}.
Definition setTouched (t : Touched) (fk : Formik) : Formik :=
  {| values := values fk; errors := errors fk; touched := t |}.

Definition with_number (s : string) (v : KycFormValues) : KycFormValues :=
  mkValues s (ghanaCardFront v) (ghanaCardBack v) (momo v) (selfie v).
Definition with_ghanaCardFront (f : option File) (v : KycFormValues) : KycFormValues :=
  mkValues (number v) f (ghanaCardBack v) (momo v) (selfie v).
Definition with_ghanaCardBack (f : option File) (v : KycFormValues) : KycFormValues :=
  mkValues (number v) (ghanaCardFront v) f (momo v) (selfie v).
Definition with_momo_number (s : string) (v : KycFormValues) : KycFormValues :=
  mkValues (number v) (ghanaCardFront v) (ghanaCardBack v)
    (Momo.mk (Momo.country_code (momo v)) s) (selfie v).
Definition with_selfie (f : option File) (v : KycFormValues) : KycFormValues :=
  mkValues (number v) (ghanaCardFront v) (ghanaCardBack v) (momo v) f.

Definition initialState : State :=
  {| currentStep := 0;
     loading := false;
     error := "";
     success := "";
     ghanaCardVerified := false;
     verifyingGhanaCard := false;
     ghanaCardError := "";
     showSuccessScreen := false;
     fullName := "";
     submittedValues := None;
     formik := {| values := initialValues;
                  errors := ∅;
                  touched := mkTouched false false false false false false |};
     submitting := [] |}.

(** ** The handlers *)

(** [formik.setTouched] as [handleNext] calls it: the fields of the
    current step. *)
Definition touch_step (step : Z) (t : Touched) : Touched :=
  if decide (step = 0) then mkTouched true true true false false false
  else if decide (step = 1) then mkTouched false false false true true false
  else if decide (step = 2) then mkTouched false false false false false true
  else t.

(** [handleNext] up to its [await axios.post]. [formik.validateForm]
    stores the errors it returns. *)
Definition handleNext_start (st : State) : State * list Effect :=
  let errors := validate (currentStep st) (values (formik st)) in
  let st := setFormik (setErrors errors) st in
  if decide (errors = ∅) then
    if bool_decide (currentStep st = 0) && negb (ghanaCardVerified st) then
      (setVerifyingGhanaCard true (setGhanaCardError "" st),
       [PostVerifyGhanaCard (number (values (formik st)))])
    else
      (setCurrentStep (fun s => s + 1) st, [])
  else
    (setFormik (fun fk => setTouched (touch_step (currentStep st) (touched fk)) fk) st, []).

(** The [try] block after the call has fulfilled, then [finally]. *)
Definition handleNext_resolved (res : AxiosResponse Verify.t) (st : State)
  : State * list Effect :=
  let '(st, out) :=
    if from_option Verify.verified false (data res) then
      (setCurrentStep (fun s => s + 1) (setGhanaCardVerified true st), [])
    else
      let message :=
        or_opt (data res ≫= Verify.message) "Ghana Card verification failed." in
      (setGhanaCardError message st, [ToastError message]) in
  (setVerifyingGhanaCard false st, out).

(** The [catch] block, then [finally]. *)
Definition handleNext_rejected (err : Thrown) (st : State) : State * list Effect :=
  let message := catch_message "Ghana Card verification failed." err in
  (setVerifyingGhanaCard false (setGhanaCardError message st), [ToastError message]).

Definition handleBack (st : State) : State :=
  setCurrentStep (fun s => Z.max 0 (s - 1)) st.

(** The [onChange] of the card-number input. *)
Definition onChange_number (s : string) (st : State) : State :=
  setGhanaCardError ""
    (setGhanaCardVerified false
       (setFormik (setValues (with_number s)) st)).

(** [formik.handleChange] and [formik.setFieldValue] on the other
    inputs; [validateOnChange] is off. *)
Definition setFieldValue (f : KycFormValues -> KycFormValues) (st : State) : State :=
  setFormik (setValues f) st.

Definition append_file (name : string) (f : option File) (fd : FormData) : FormData :=
  match f with
  | Some x => (fd ++ [(name, Binary x)])%list
  | None => fd
  end.

Definition build_formData (values : KycFormValues) : FormData :=
  let fd := [("number", Text (number values))] in
  let fd := append_file "ghanaCardFront" (ghanaCardFront values) fd in
  let fd := append_file "ghanaCardBack" (ghanaCardBack values) fd in
  let fd := (fd ++ [("momo_country_code", Text (Momo.country_code (momo values)))])%list in
  let fd := (fd ++ [("momo_number", Text (Momo.number (momo values)))])%list in
  append_file "selfie" (selfie values) fd.

(** [onSubmit] up to its [await axios.post], where the call joins the
    suspended ones. *)
Definition onSubmit_start (values : KycFormValues) (st : State) : State * list Effect :=
  (setSubmitting (submitting st ++ [values])%list
     (setSuccess "" (setError "" (setLoading true st))),
   [PostCompleteKyc (build_formData values)]).

(** The [catch] block of [onSubmit], then [finally]. *)
Definition onSubmit_rejected (err : Thrown) (st : State) : State * list Effect :=
  let message := catch_message "Failed to complete KYC" err in
  (setLoading false (setError message st), [ToastError message]).

(** The [try] block after the call has fulfilled, then [finally].
    [res?.data?.full_name] tolerates a [null] body, [res.data.message]
    throws on it and the [catch] block runs. *)
Definition onSubmit_resolved (values : KycFormValues) (res : AxiosResponse Kyc.t)
    (st : State) : State * list Effect :=
  let st := setFullName (or_opt (data res ≫= Kyc.full_name) "") st in
  match data res with
  | Some d =>
      let message := or_opt (Kyc.message d) "KYC Completed!" in
      (setLoading false
         (setShowSuccessScreen true
            (setSubmittedValues (Some values) (setSuccess message st))),
       [ToastSuccess message])
  | None => onSubmit_rejected null_data_TypeError st
  end.

(** [formik.handleSubmit]: every field is touched, the values are
    validated against the schema of the current step, and [onSubmit] runs
    only when there is no error. *)
Definition handleSubmit (st : State) : State * list Effect :=
  let errors := validate (currentStep st) (values (formik st)) in
  let st :=
    setFormik
      (fun fk => setErrors errors (setTouched (mkTouched true true true true true true) fk))
      st in
  if decide (errors = ∅) then onSubmit_start (values (formik st)) st
  else (st, []).

(** ** The page as a transition system

    An event is what the user or the network can do to the rendered
    page. [step] is defined where the JSX offers the control: the inputs
    of the current step, [Back] when [currentStep > 0] and not [loading],
    [Continue] before the last step and not
    [loading || verifyingGhanaCard], the submit button on the last step
    and not [loading]; a response needs its call in flight.

    The whole form has [onSubmit={formik.handleSubmit}]. Step 0 renders
    one text input and no submit button, so the browser submits the form
    when Enter is pressed in the card-number input ([PressEnter]),
    whatever [loading] and [verifyingGhanaCard] are. Step 1 has two text
    inputs and no submit button, step 2 no text input: there Enter
    submits nothing.

    The answers to the suspended [onSubmit] calls may come in any order:
    [SubmitResolved i] and [SubmitRejected i] resume the [i]-th of
    them. *)

Inductive Event : Type :=
  | TypeNumber (s : string)
  | PickFront (f : option File)
  | PickBack (f : option File)
  | TypeMomoNumber (s : string)
  | PickSelfie (f : option File)
  | ClickContinue
  | ClickBack
  | ClickSubmit
  | PressEnter
  | VerifyResolved (res : AxiosResponse Verify.t)
  | VerifyRejected (err : Thrown)
  | SubmitResolved (i : nat) (res : AxiosResponse Kyc.t)
  | SubmitRejected (i : nat) (err : Thrown).

(** The form is rendered unless the success screen is. *)
Definition form_shown (st : State) : bool :=
  negb (showSuccessScreen st && bool_decide (is_Some (submittedValues st))).

Definition on_step (n : Z) (st : State) : bool :=
  form_shown st && bool_decide (currentStep st = n).

Definition guard {A : Type} (b : bool) (x : A) : option A :=
  if b then Some x else None.

(** The [i]-th suspended [onSubmit] call has run to its end. *)
Definition resumed (i : nat) (r : State * list Effect) : State * list Effect :=
  (setSubmitting (delete i (submitting r.1)) r.1, r.2).

Definition step (e : Event) (st : State) : option (State * list Effect) :=
  match e with
  | TypeNumber s => guard (on_step 0 st) (onChange_number s st, [])
  | PickFront f => guard (on_step 0 st) (setFieldValue (with_ghanaCardFront f) st, [])
  | PickBack f => guard (on_step 0 st) (setFieldValue (with_ghanaCardBack f) st, [])
  | TypeMomoNumber s => guard (on_step 1 st) (setFieldValue (with_momo_number s) st, [])
  | PickSelfie f => guard (on_step 2 st) (setFieldValue (with_selfie f) st, [])
  | ClickContinue =>
      guard (form_shown st
             && bool_decide (currentStep st < Z.of_nat (length KYC_STEPS) - 1)
             && negb (loading st || verifyingGhanaCard st))
        (handleNext_start st)
  | ClickBack =>
      guard (form_shown st && bool_decide (currentStep st > 0) && negb (loading st))
        (handleBack st, [])
  | ClickSubmit =>
      guard (form_shown st
             && bool_decide (currentStep st = Z.of_nat (length KYC_STEPS) - 1)
             && negb (loading st))
        (handleSubmit st)
  | PressEnter => guard (on_step 0 st) (handleSubmit st)
  | VerifyResolved res => guard (verifyingGhanaCard st) (handleNext_resolved res st)
  | VerifyRejected err => guard (verifyingGhanaCard st) (handleNext_rejected err st)
  | SubmitResolved i res =>
      values ← submitting st !! i;
      Some (resumed i (onSubmit_resolved values res st))
  | SubmitRejected i err =>
      guard (bool_decide (is_Some (submitting st !! i)))
        (resumed i (onSubmit_rejected err st))
  end.

(** A run from a state: the state it ends in and the effects performed,
    in order; [None] when some event is not offered. *)
Fixpoint run (es : list Event) (st : State) : option (State * list Effect) :=
  match es with
  | [] => Some (st, [])
  | e :: es' =>
      '(st1, out1) ← step e st;
      '(st2, out2) ← run es' st1;
      Some (st2, (out1 ++ out2)%list)
  end.

Definition reachable (st : State) : Prop :=
  ∃ es out, run es initialState = Some (st, out).

(** ** The spec's state variants, read off the cells *)

Inductive VerificationState : Type :=
  | NotStarted
  | VPending
  | Verified
  | VFailed (message : string).

Definition verificationState (st : State) : VerificationState :=
  if verifyingGhanaCard st then VPending
  else if ghanaCardVerified st then Verified
  else if decide (ghanaCardError st = "") then NotStarted
  else VFailed (ghanaCardError st).

Inductive SubmissionState : Type :=
  | Idle
  | SPending
  | Succeeded (message fullName : string) (valuesSnapshot : option KycFormValues)
  | SFailed (message : string).

Definition submissionState (st : State) : SubmissionState :=
  if loading st then SPending
  else if showSuccessScreen st then Succeeded (success st) (fullName st) (submittedValues st)
  else if decide (error st = "") then Idle
  else SFailed (error st).


(** ** [useFilePreview]

    The browser's registry of object URLs: [createObjectURL] hands out a
    URL never used before and records the blob behind it,
    [revokeObjectURL] forgets it. A URL is known by its number. *)

Record Browser : Type := mkBrowser {
  next_url : nat;
  live : gmap nat File
}.

Definition createObjectURL (f : File) (b : Browser) : nat * Browser :=
  (next_url b, {| next_url := S (next_url b); live := <[next_url b := f]> (live b) |}).

Definition revokeObjectURL (url : nat) (b : Browser) : Browser :=
  {| next_url := next_url b; live := delete url (live b) |}.

Inductive UrlCall : Type :=
  | Create (url : nat)
  | Revoke (url : nat).

(** One mounted instance of the hook: the [file] its effect last ran
    with ([None] before the first run), the [preview] cell, and the URL
    that the cleanup function returned by the effect closes over. *)
Record Hook : Type := mkHook {
  deps : option (option File);
  preview : option nat;
  cleanup : option nat
}.

Definition mounted : Hook := {| deps := None; preview := None; cleanup := None |}.

Definition run_cleanup (h : Hook) (b : Browser) : Browser * list UrlCall :=
  match cleanup h with
  | Some url => (revokeObjectURL url b, [Revoke url])
  | None => (b, [])
  end.

(** A commit of the component with [file], taken together with the
    effects it triggers and the re-render they schedule: when [file]
    differs from the last dependency the old cleanup runs, then the
    effect. *)
Definition useFilePreview (file : option File) (h : Hook) (b : Browser)
  : Hook * Browser * list UrlCall :=
  if decide (deps h = Some file) then (h, b, [])
  else
    let '(b, out) := run_cleanup h b in
    match file with
    | None => ({| deps := Some None; preview := None; cleanup := None |}, b, out)
    | Some f =>
        let '(url, b) := createObjectURL f b in
        ({| deps := Some file; preview := Some url; cleanup := Some url |},
         b, (out ++ [Create url])%list)
    end.

(** The slots of a page (one hook instance per field) over one browser. *)
Record Page : Type := mkPage {
  slots : gmap string Hook;
  browser : Browser
}.

Inductive SlotOp : Type :=
  | Assign (slot : string) (file : option File)
  | Teardown (slot : string).

Definition apply_op (op : SlotOp) (p : Page) : Page * list UrlCall :=
  match op with
  | Assign slot file =>
      let h := default mounted (slots p !! slot) in
      let '(h, b, out) := useFilePreview file h (browser p) in
      ({| slots := <[slot := h]> (slots p); browser := b |}, out)
  | Teardown slot =>
      match slots p !! slot with
      | Some h =>
          let '(b, out) := run_cleanup h (browser p) in
          ({| slots := delete slot (slots p); browser := b |}, out)
      | None => (p, [])
      end
  end.

Fixpoint apply_ops (ops : list SlotOp) (p : Page) : Page * list UrlCall :=
  match ops with
  | [] => (p, [])
  | op :: ops' =>
      let '(p1, out1) := apply_op op p in
      let '(p2, out2) := apply_ops ops' p1 in
      (p2, (out1 ++ out2)%list)
  end.

Definition empty_page : Page :=
  {| slots := ∅; browser := {| next_url := 0; live := ∅ |} |}.

(** The handle a slot holds, the file it stands for. *)
Definition handle_of (p : Page) (slot : string) : option nat :=
  slots p !! slot ≫= cleanup.

Definition file_of (p : Page) (slot : string) : option File :=
  match slots p !! slot ≫= deps with
  | Some file => file
  | None => None
  end.

(** No handle leaked, none dangling: the live URLs are exactly the
    handles the mounted slots hold, a slot shows the handle it holds, it
    holds one exactly for a non-null file and the handle resolves to that
    file, and no two slots hold the same handle. *)
Definition slot_ok (p : Page) (slot : string) (h : Hook) : Prop :=
  preview h = cleanup h ∧
  match file_of p slot with
  | Some f => ∃ url, cleanup h = Some url ∧ live (browser p) !! url = Some f
  | None => cleanup h = None
  end.

Definition page_ok (p : Page) : Prop :=
  (∀ url, is_Some (live (browser p) !! url) ↔ ∃ slot, handle_of p slot = Some url) ∧
  (∀ slot h, slots p !! slot = Some h → slot_ok p slot h) ∧
  (∀ s1 s2 url, handle_of p s1 = Some url → handle_of p s2 = Some url → s1 = s2) ∧
  (∀ url, is_Some (live (browser p) !! url) → (url < next_url (browser p))%nat).

(** ** The values object and the snapshot, with sharing

    [setSubmittedValues(values)] stores the very object [onSubmit] was
    given, no copy. The store below holds the objects; Formik's [setIn]
    never writes to an object: it returns the object itself when the new
    value is the old one, and otherwise clones the objects on the path and
    shares the rest. *)

Module Store.

Abbreviation loc := nat.

Inductive Obj : Type :=
  | ValuesObj (number : string) (ghanaCardFront ghanaCardBack : option File)
      (momo : loc) (selfie : option File)
  | MomoObj (country_code number : string).

Record t : Type := mk {
  heap : list Obj;
  formik_values : loc;
  submitting : option loc;
  submittedValues : option loc
}.

Definition alloc (o : Obj) (h : list Obj) : loc * list Obj :=
  (length h, (h ++ [o])%list).

Inductive Mutation : Type :=
  | SetNumber (s : string)
  | SetGhanaCardFront (f : option File)
  | SetGhanaCardBack (f : option File)
  | SetMomoNumber (s : string)
  | SetSelfie (f : option File).

(** [setIn(values, path, value)] on the store: the new heap and the
    reference to the resulting values object. *)
Definition setIn (m : Mutation) (h : list Obj) (v : loc) : list Obj * loc :=
  match h !! v with
  | Some (ValuesObj n f b mo s) =>
      let fresh o := let '(l, h') := alloc o h in (h', l) in
      match m with
      | SetNumber n' =>
          if decide (n = n') then (h, v) else fresh (ValuesObj n' f b mo s)
      | SetGhanaCardFront f' =>
          if decide (f = f') then (h, v) else fresh (ValuesObj n f' b mo s)
      | SetGhanaCardBack b' =>
          if decide (b = b') then (h, v) else fresh (ValuesObj n f b' mo s)
      | SetSelfie s' =>
          if decide (s = s') then (h, v) else fresh (ValuesObj n f b mo s')
      | SetMomoNumber x =>
          match h !! mo with
          | Some (MomoObj cc x0) =>
              if decide (x0 = x) then (h, v)
              else
                let '(lm, h1) := alloc (MomoObj cc x) h in
                let '(lv, h2) := alloc (ValuesObj n f b lm s) h1 in
                (h2, lv)
          | _ => (h, v)
          end
      end
  | _ => (h, v)
  end.

Definition mutate (m : Mutation) (st : t) : t :=
  let '(h, v) := setIn m (heap st) (formik_values st) in
  {| heap := h; formik_values := v;
     submitting := submitting st; submittedValues := submittedValues st |}.

(** [onSubmit(values)] is entered with Formik's current object. *)
Definition onSubmit_start (st : t) : t :=
  {| heap := heap st; formik_values := formik_values st;
     submitting := Some (formik_values st); submittedValues := submittedValues st |}.

(** [setSubmittedValues(values)] on success. *)
Definition onSubmit_success (st : t) : t :=
  {| heap := heap st; formik_values := formik_values st;
     submitting := None; submittedValues := submitting st |}.

(** The values an object stands for. *)
Definition read (h : list Obj) (v : loc) : option KycFormValues :=
  match h !! v with
  | Some (ValuesObj n f b mo s) =>
      match h !! mo with
      | Some (MomoObj cc x) => Some (mkValues n f b (Momo.mk cc x) s)
      | _ => None
      end
  | _ => None
  end.

(** What the success screen renders from [submittedValues]: the number,
    the two [momo] fields, and the three files handed to
    [useFilePreview]. *)
Definition summary (st : t) : option KycFormValues :=
  submittedValues st ≫= read (heap st).

(** The same mutation on the values of the page state. *)
Definition pure (m : Mutation) : KycFormValues -> KycFormValues :=
  match m with
  | SetNumber s => with_number s
  | SetGhanaCardFront f => with_ghanaCardFront f
  | SetGhanaCardBack f => with_ghanaCardBack f
  | SetMomoNumber s => with_momo_number s
  | SetSelfie f => with_selfie f
  end.

(** [initialValues] laid out in the store. *)
Definition init : t :=
  {| heap := [MomoObj "+233" ""; ValuesObj "" None None 0%nat None];
     formik_values := 1%nat;
     submitting := None;
     submittedValues := None |}.

End Store.

(** ** What the page shows

    The error lines of the form: a message is rendered under an input of
    the current step when the field is touched and has a (truthy)
    error. The [momo.country_code] input renders none. *)

Definition touched_at (t : Touched) (path : string) : bool :=
  if decide (path = "number") then t_number t
  else if decide (path = "ghanaCardFront") then t_ghanaCardFront t
  else if decide (path = "ghanaCardBack") then t_ghanaCardBack t
  else if decide (path = "momo.country_code") then t_momo_country_code t
  else if decide (path = "momo.number") then t_momo_number t
  else if decide (path = "selfie") then t_selfie t
  else false.

(** The fields of a step that have an error line. *)
Definition error_lines (step : Z) : gset string :=
  match step with
  | 0 => {["number"; "ghanaCardFront"; "ghanaCardBack"]}
  | 1 => {["momo.number"]}
  | 2 => {["selfie"]}
  | _ => ∅
  end.

Definition visible_errors (st : State) : FormikErrors :=
  filter
    (fun e => e.1 ∈ error_lines (currentStep st)
              ∧ touched_at (touched (formik st)) e.1 = true
              ∧ e.2 ≠ "")
    (errors (formik st)).

(** ** The previews of a rendered page

    The [useFilePreview] instances a render mounts, each with the file
    it is given: the three hooks of [KycPage] itself, fed from the
    snapshot, and those of the [FileInputWithPreview]s of the current
    step when the form is rendered. *)
Definition rendered_previews (st : State) : list (string * option File) :=
  [("summary.ghanaCardFront", submittedValues st ≫= ghanaCardFront);
   ("summary.ghanaCardBack", submittedValues st ≫= ghanaCardBack);
   ("summary.selfie", submittedValues st ≫= selfie)] ++
  (if form_shown st then
     if decide (currentStep st = 0) then
       [("ghanaCardFront", ghanaCardFront (values (formik st)));
        ("ghanaCardBack", ghanaCardBack (values (formik st)))]
     else if decide (currentStep st = 2) then
       [("selfie", selfie (values (formik st)))]
     else []
   else [])%list.

(** A commit of the page in state [st] over the mounted hooks [p]: the
    instances no longer rendered are torn down, the rendered ones are
    committed with their files. *)
Definition commit (st : State) (p : Page) : Page * list UrlCall :=
  apply_ops
    ((Teardown <$>
        filter (fun slot => slot ∉ (rendered_previews st).*1)
          (elements (dom (slots p)))) ++
     ((fun sf => Assign sf.1 sf.2) <$> rendered_previews st))%list
    p.

(** The page and its hooks along a run, a commit after every event. *)
Fixpoint run_ui (es : list Event) (st : State) (p : Page) : option (State * Page) :=
  match es with
  | [] => Some (st, p)
  | e :: es' =>
      '(st1, _) ← step e st;
      run_ui es' st1 (commit st1 p).1
  end.

Definition first_render : Page := (commit initialState empty_page).1.

(** * Vocabulary of the properties *)

(** ** The rules of the steps, in plain terms *)

Fixpoint digits_only (s : string) : bool :=
  match s with
  | String c t => is_digit c && digits_only t
  | EmptyString => true
  end.

(** [GHA-], nine digits, a dash, one digit, and nothing else. *)
Definition spec_ghana_card_format (s : string) : Prop :=
  ∃ d9 d1, s = "GHA-" ++ d9 ++ "-" ++ d1 ∧
           String.length d9 = 9%nat ∧ digits_only d9 = true ∧
           String.length d1 = 1%nat ∧ digits_only d1 = true.

(** Six to fifteen digits, and nothing else. *)
Definition spec_momo_number_format (s : string) : Prop :=
  digits_only s = true ∧ (6 ≤ String.length s ≤ 15)%nat.

(** The rules of each step, as the specification words them. *)
Definition spec_rules (step : Z) (v : KycFormValues) : Prop :=
  match step with
  | 0 => spec_ghana_card_format (number v) ∧
         is_Some (ghanaCardFront v) ∧ is_Some (ghanaCardBack v)
  | 1 => Momo.country_code (momo v) ≠ "" ∧
         spec_momo_number_format (Momo.number (momo v))
  | 2 => is_Some (selfie v)
  | _ => True
  end.

(** ** Runs of the page *)

(** What every reachable state satisfies: the step is one of the three;
    while a verification call is in flight the page is on step 0 with
    nothing cached and no message; while [loading] is on some submission
    is suspended; the success screen comes with a snapshot. *)
Definition Inv (st : State) : Prop :=
  0 ≤ currentStep st ≤ 2 ∧
  (verifyingGhanaCard st = true →
   currentStep st = 0 ∧ ghanaCardVerified st = false ∧ ghanaCardError st = "") ∧
  (loading st = true → submitting st ≠ []) ∧
  (showSuccessScreen st = true → is_Some (submittedValues st)).

(** ** Failure messages *)

(** [err.response?.data?.message] *)
Definition body_message (response : option (AxiosResponse Err.t)) : option string :=
  (response ≫= data) ≫= Err.message.

(** The message of a failed call as the specification words it: the one
    of the error body when present, a generic one otherwise. *)
Definition spec_failure_message (generic : string)
    (response : option (AxiosResponse Err.t)) : string :=
  match body_message response with
  | Some m => if decide (m = "") then generic else m
  | None => generic
  end.

(** ** Sample runs *)

(** The step-0 fields filled in with valid values. *)
Definition fill_step0 : list Event :=
  [TypeNumber "GHA-123456789-1"; PickFront (Some (Blob 1)); PickBack (Some (Blob 2))].

(** The response [{verified: true}]. *)
Definition verified_ok : AxiosResponse Verify.t :=
  mkResponse (Some (Verify.mk true None)).

(** A valid form taken to the last step and submitted. *)
Definition submit_trace : list Event :=
  fill_step0 ++
  [ClickContinue; VerifyResolved verified_ok;
   TypeMomoNumber "244000000"; ClickContinue;
   PickSelfie (Some (Blob 3)); ClickSubmit].

(** Enter is pressed in the card-number input once the step-0 fields are
    filled in. *)
Definition enter_trace : list Event := fill_step0 ++ [PressEnter].

(** The state a run from [initialState] ends in. *)
Definition state_after (es : list Event) : State :=
  from_option fst initialState (run es initialState).

(** The number is changed to [n'] between the verification call and its
    response. *)
Definition stale_trace (n' : string) : list Event :=
  fill_step0 ++ [ClickContinue; TypeNumber n'; VerifyResolved verified_ok].

(** The same with a malformed number, carried on to the submission. *)
Definition unchecked_submit_trace : list Event :=
  stale_trace "bogus" ++
  [TypeMomoNumber "244000000"; ClickContinue; PickSelfie (Some (Blob 3)); ClickSubmit].

(** The events that edit a field. *)
Definition is_edit (e : Event) : bool :=
  match e with
  | TypeNumber _ | PickFront _ | PickBack _ | TypeMomoNumber _ | PickSelfie _ => true
  | _ => false
  end.

(** The events that come from the user, not from the network. *)
Definition is_user_event (e : Event) : bool :=
  match e with
  | VerifyResolved _ | VerifyRejected _ | SubmitResolved _ _ | SubmitRejected _ _ => false
  | _ => true
  end.

(** A run in which no field is edited while a verification call is in
    flight. *)
Fixpoint run_quiet (es : list Event) (st : State) : option (State * list Effect) :=
  match es with
  | [] => Some (st, [])
  | e :: es' =>
      if is_edit e && verifyingGhanaCard st then None
      else
        '(st1, out1) ← step e st;
        '(st2, out2) ← run_quiet es' st1;
        Some (st2, (out1 ++ out2)%list)
  end.

(** The steps already passed are still valid. *)
Definition passed_valid (st : State) : Prop :=
  (1 ≤ currentStep st ∨ verifyingGhanaCard st = true →
   validate 0 (values (formik st)) = ∅) ∧
  (2 ≤ currentStep st → validate 1 (values (formik st)) = ∅).

(** ** Edits of the stored values *)

Definition mutate_all (ms : list Store.Mutation) (st : Store.t) : Store.t :=
  fold_left (fun st m => Store.mutate m st) ms st.

Definition pure_all (ms : list Store.Mutation) (v : KycFormValues) : KycFormValues :=
  fold_left (fun v m => Store.pure m v) ms v.

(** ** Calls to the URL registry *)

Definition revokes (handle : option nat) : list UrlCall :=
  match handle with
  | Some url => [Revoke url]
  | None => []
  end.

Definition creates (handle : option nat) : list UrlCall :=
  match handle with
  | Some url => [Create url]
  | None => []
  end.

(** The file a slot was last given is another one (or the slot is not
    mounted yet). *)
Definition changes (p : Page) (slot : string) (file : option File) : Prop :=
  slots p !! slot ≫= deps ≠ Some file.

(** ** More of what every reachable state satisfies *)

(** Past step 0 the card counts as verified; the country code is the
    initial one; on the last step the momo fields are valid; the success
    screen has a success text. *)
Definition Inv2 (st : State) : Prop :=
  (1 ≤ currentStep st → ghanaCardVerified st = true) ∧
  Momo.country_code (momo (values (formik st))) = "+233" ∧
  (2 ≤ currentStep st → validate 1 (values (formik st)) = ∅) ∧
  (showSuccessScreen st = true → success st ≠ "").

(** ** Waiting for the answer to a submission *)

(** The answers to submission calls. *)
Definition is_submit_answer (e : Event) : bool :=
  match e with
  | SubmitResolved _ _ | SubmitRejected _ _ => true
  | _ => false
  end.

(** Two values records that differ at most in the selfie. *)
Definition same_but_selfie (v w : KycFormValues) : Prop :=
  number v = number w ∧ ghanaCardFront v = ghanaCardFront w ∧
  ghanaCardBack v = ghanaCardBack w ∧ momo v = momo w.

(** The page waits on step 2 for the answer to the one submission that
    is suspended, the one of [v]. *)
Definition waiting (v : KycFormValues) (st : State) : Prop :=
  currentStep st = 2 ∧ loading st = true ∧ submitting st = [v] ∧
  verifyingGhanaCard st = false ∧ showSuccessScreen st = false ∧
  same_but_selfie (values (formik st)) v.

(** The response of a verification call says [verified]. *)
Definition says_verified (e : Event) : Prop :=
  ∃ res, e = VerifyResolved res ∧ from_option Verify.verified false (data res) = true.

(** ** Logs of registry calls *)

(** Replaying a log from the sets of the URLs live now and of those ever
    created: it fails when a URL is created a second time, or revoked
    while it is not live. *)
Fixpoint replay (log : list UrlCall) (now ever : gset nat)
  : option (gset nat * gset nat) :=
  match log with
  | [] => Some (now, ever)
  | Create url :: log' =>
      if decide (url ∈ ever) then None
      else replay log' ({[url]} ∪ now) ({[url]} ∪ ever)
  | Revoke url :: log' =>
      if decide (url ∈ now) then replay log' (now ∖ {[url]}) ever
      else None
  end.

(** ** Previews in step with the fields *)

(** The mounted hooks are the rendered ones, and each shows a live URL
    of the file it is given, or nothing for no file. *)
Definition previews_match (st : State) (p : Page) : Prop :=
  dom (slots p) = list_to_set (rendered_previews st).*1 ∧
  ∀ slot file, (slot, file) ∈ rendered_previews st →
    ∃ h, slots p !! slot = Some h ∧
         match file with
         | Some f => ∃ url, preview h = Some url ∧ live (browser p) !! url = Some f
         | None => preview h = None
         end.

(** * Properties *)

(** ** The model on the scenarios of the specification *)

Example valid_values_pass :
  let v := mkValues "GHA-123456789-1" (Some (Blob 1)) (Some (Blob 2))
             (Momo.mk "+233" "244000000") (Some (Blob 3)) in
  validate 0 v = ∅ ∧ validate 1 v = ∅ ∧ validate 2 v = ∅.
Proof. vm_compute. done. Qed.

Example initial_values_fail :
  map_to_list (validate 0 initialValues) =
    [("ghanaCardFront", "Front image is required");
     ("ghanaCardBack", "Back image is required");
     ("number", "Ghana Card Number is required")] ∧
  map_to_list (validate 1 initialValues) =
    [("momo.number", "Phone number is required")] ∧
  map_to_list (validate 2 initialValues) = [("selfie", "Selfie is required")].
Proof. vm_compute. done. Qed.

Example patterns_on_samples :
  test_anchored ghana_card_re "GHA-123456789-1" = true ∧
  test_anchored ghana_card_re "GHA-123456789-12" = false ∧
  test_anchored ghana_card_re "xGHA-123456789-1" = false ∧
  test_anchored ghana_card_re "GHA-12345678-1" = false ∧
  test_anchored momo_number_re "12345" = false ∧
  test_anchored momo_number_re "123456" = true ∧
  test_anchored momo_number_re "123456789012345" = true ∧
  test_anchored momo_number_re "1234567890123456" = false ∧
  test_anchored momo_number_re "1234a6" = false.
Proof. vm_compute. done. Qed.

(** Verification answers [{verified: true}]: the step becomes 1. *)
Example scenario_verified :
  ∃ st out,
    run (fill_step0 ++ [ClickContinue; VerifyResolved verified_ok]) initialState
      = Some (st, out) ∧
    currentStep st = 1 ∧ verificationState st = Verified ∧
    out = [PostVerifyGhanaCard "GHA-123456789-1"].
Proof. eexists _, _. split; [vm_compute; reflexivity |]. done. Qed.

(** Verification answers [{verified: false, message: "Not found"}]: the
    step stays 0, "Not found" is shown, and Continue is offered again. *)
Example scenario_not_found :
  ∃ st out,
    run (fill_step0 ++
         [ClickContinue;
          VerifyResolved (mkResponse (Some (Verify.mk false (Some "Not found"))))])
      initialState = Some (st, out) ∧
    currentStep st = 0 ∧ verificationState st = VFailed "Not found" ∧
    out = [PostVerifyGhanaCard "GHA-123456789-1"; ToastError "Not found"] ∧
    is_Some (step ClickContinue st).
Proof. eexists _, _. split; [vm_compute; reflexivity |]. vm_compute. eauto 10. Qed.

(** A full valid submission answered with
    [{message: "KYC Completed!", full_name: "Jane Doe"}]. *)
Example scenario_submitted :
  ∃ st out,
    run (submit_trace ++
         [SubmitResolved 0
            (mkResponse (Some (Kyc.mk (Some "KYC Completed!") (Some "Jane Doe"))))])
      initialState = Some (st, out) ∧
    submissionState st =
      Succeeded "KYC Completed!" "Jane Doe"
        (Some (mkValues "GHA-123456789-1" (Some (Blob 1)) (Some (Blob 2))
                 (Momo.mk "+233" "244000000") (Some (Blob 3)))) ∧
    form_shown st = false ∧
    last out = Some (ToastSuccess "KYC Completed!").
Proof. eexists _, _. split; [vm_compute; reflexivity |]. done. Qed.

(** A fulfilled submission with a [null] body: [res.data.message] throws
    and the page ends in the failed state, the name already reset. *)
Example scenario_null_body :
  ∃ st out,
    run (submit_trace ++ [SubmitResolved 0 (mkResponse None)]) initialState
      = Some (st, out) ∧
    submissionState st =
      SFailed "Cannot read properties of null (reading 'message')" ∧
    currentStep st = 2.
Proof. eexists _, _. split; [vm_compute; reflexivity |]. done. Qed.

(** Enter in the card-number input submits the form from step 0: the
    step-0 schema is the one checked, and the submission call goes out
    with an empty mobile-money number and no selfie part. *)
Example scenario_enter_on_step0 :
  ∃ st,
    run enter_trace initialState =
      Some (st,
            [PostCompleteKyc
               [("number", Text "GHA-123456789-1");
                ("ghanaCardFront", Binary (Blob 1));
                ("ghanaCardBack", Binary (Blob 2));
                ("momo_country_code", Text "+233");
                ("momo_number", Text "")]]) ∧
    currentStep st = 0 ∧ loading st = true ∧
    step ClickContinue st = None ∧ step ClickSubmit st = None.
Proof. eexists. split; [vm_compute; reflexivity |]. done. Qed.

(** Enter is not held back by a verification call in flight: both calls
    are then pending, and the answers to two submissions may come in
    either order. *)
Example scenario_enter_while_verifying :
  ∃ st out,
    run (fill_step0 ++ [ClickContinue; PressEnter; PressEnter]) initialState
      = Some (st, out) ∧
    verifyingGhanaCard st = true ∧ loading st = true ∧
    length (submitting st) = 2%nat ∧
    is_Some (step (SubmitRejected 1 (AxiosError None "Network Error")) st) ∧
    is_Some (step (SubmitRejected 0 (AxiosError None "Network Error")) st).
Proof. eexists _, _. split; [vm_compute; reflexivity |]. vm_compute. eauto 10. Qed.

(** Two slots over one registry: replace, clear, tear down. *)
Example preview_calls :
  let r := apply_ops
             [Assign "ghanaCardFront" (Some (Blob 1));
              Assign "selfie" (Some (Blob 3));
              Assign "ghanaCardFront" (Some (Blob 2));
              Assign "ghanaCardFront" (Some (Blob 2));
              Assign "ghanaCardFront" None;
              Teardown "selfie";
              Teardown "ghanaCardFront"]
             empty_page in
  r.2 = [Create 0%nat; Create 1%nat; Revoke 0%nat; Create 2%nat;
         Revoke 2%nat; Revoke 1%nat] ∧
  live (browser r.1) = ∅.
Proof. vm_compute. done. Qed.

(** ** The patterns, in plain terms *)

Lemma in_eat (p : ascii -> bool) (s t : string) :
  In t (eat p s) ↔ ∃ c, s = String c t ∧ p c = true.
Proof.
  destruct s as [|c s]; simpl.
  - split; [tauto | intros (c & H & _); discriminate].
  - destruct (p c) eqn:Hp; simpl.
    + split.
      * intros [<- | []]. eauto.
      * intros (c' & [= -> ->] & _). now left.
    + split; [tauto | intros (c' & [= -> ->] & H); congruence].
Qed.

Lemma in_between_digits (hi lo : nat) (s t : string) :
  In t (between (eat is_digit) lo hi s) ↔
  ∃ p, s = p ++ t ∧ digits_only p = true ∧ (lo ≤ String.length p ≤ hi)%nat.
Proof.
  revert lo s. induction hi as [|hi IH]; intros lo s; simpl.
  - rewrite app_nil_r. destruct (Nat.eqb_spec lo 0) as [-> | Hlo]; simpl.
    + split.
      * intros [<- | []]. exists "". simpl. auto with lia.
      * intros (p & -> & _ & Hlen). destruct p; simpl in *; [now left | lia].
    + split; [tauto |]. intros (p & _ & _ & Hlen). lia.
  - rewrite in_app_iff, in_flat_map. split.
    + intros [Hhead | (s' & Hs' & Ht)].
      * destruct (Nat.eqb_spec lo 0) as [-> | Hlo]; simpl in Hhead; [| tauto].
        destruct Hhead as [<- | []]. exists "". simpl. auto with lia.
      * apply in_eat in Hs' as (c & -> & Hc). apply IH in Ht as (p & -> & Hp & Hlen).
        exists (String c p). simpl. rewrite Hc, Hp. auto with lia.
    + intros (p & -> & Hp & Hlen). destruct p as [|c p]; simpl in *.
      * left. replace lo with 0%nat by lia. now left.
      * right. apply andb_true_iff in Hp as [Hc Hp].
        exists (p ++ t). split.
        { apply (in_eat is_digit (String c (p ++ t))). eauto. }
        apply IH. exists p. auto with lia.
Qed.

Lemma in_residuals_lits (pre : string) (k : regex) (s t : string) :
  In t (residuals (lits pre k) s) ↔ ∃ s', s = pre ++ s' ∧ In t (residuals k s').
Proof.
  revert s. induction pre as [|c pre IH]; intros s; simpl.
  - split; [eauto | now intros (s' & -> & H)].
  - rewrite in_flat_map. split.
    + intros (s1 & Hs1 & Ht). apply in_eat in Hs1 as (c' & -> & Hc).
      apply Ascii.eqb_eq in Hc as <-. apply IH in Ht as (s' & -> & Ht). eauto.
    + intros (s' & -> & Ht). exists (pre ++ s'). split.
      * apply in_eat. exists c. split; [done | apply Ascii.eqb_refl].
      * apply IH. eauto.
Qed.

Lemma test_anchored_spec (r : regex) (s : string) :
  test_anchored r s = true ↔ In "" (residuals r s).
Proof.
  unfold test_anchored. rewrite existsb_exists. split.
  - intros (t & Ht & Heq). apply String.eqb_eq in Heq as <-. done.
  - intros H. exists "". split; [done | apply String.eqb_refl].
Qed.

Lemma string_app_empty_r (s : string) : s ++ "" = s.
Proof.
  induction s as [|c s IH]; [done |].
  change (String c (s ++ "") = String c s). by rewrite IH.
Qed.

Lemma residuals_Cat (r1 r2 : regex) (s : string) :
  residuals (Cat r1 r2) s = flat_map (residuals r2) (residuals r1 s).
Proof. reflexivity. Qed.

Lemma residuals_Repeat_Digit (lo hi : nat) (s : string) :
  residuals (Repeat lo hi Digit) s = between (eat is_digit) lo hi s.
Proof. reflexivity. Qed.

Lemma in_residuals_Lit (c : ascii) (s t : string) :
  In t (residuals (Lit c) s) ↔ s = String c t.
Proof.
  change (residuals (Lit c) s) with (eat (Ascii.eqb c) s). rewrite in_eat. split.
  - intros (c' & -> & Hc). by apply Ascii.eqb_eq in Hc as <-.
  - intros ->. exists c. split; [done | apply Ascii.eqb_refl].
Qed.

Lemma in_residuals_Digit (s t : string) :
  In t (residuals Digit s) ↔ ∃ c, s = String c t ∧ is_digit c = true.
Proof. apply in_eat. Qed.

Lemma momo_number_re_spec (s : string) :
  test_anchored momo_number_re s = true ↔ spec_momo_number_format s.
Proof.
  rewrite test_anchored_spec. unfold momo_number_re, spec_momo_number_format.
  rewrite residuals_Repeat_Digit, in_between_digits. split.
  - intros (p & -> & Hp & Hlen). rewrite string_app_empty_r. done.
  - intros [Hp Hlen]. exists s. rewrite string_app_empty_r. done.
Qed.

Lemma ghana_card_re_spec (s : string) :
  test_anchored ghana_card_re s = true ↔ spec_ghana_card_format s.
Proof.
  rewrite test_anchored_spec. unfold ghana_card_re, spec_ghana_card_format.
  rewrite in_residuals_lits. split.
  - intros (s' & -> & H). rewrite residuals_Cat in H.
    apply in_flat_map in H as (s1 & Hs1 & H).
    rewrite residuals_Repeat_Digit in Hs1.
    apply in_between_digits in Hs1 as (d9 & -> & Hd9 & Hlen).
    rewrite residuals_Cat in H. apply in_flat_map in H as (s2 & Hs2 & H).
    apply in_residuals_Lit in Hs2 as ->.
    apply in_residuals_Digit in H as (d & -> & Hd).
    exists d9, (String d ""). simpl. rewrite Hd. repeat split; auto with lia.
  - intros (d9 & d1 & -> & Hlen9 & Hd9 & Hlen1 & Hd1).
    destruct d1 as [|d [|? ?]]; simpl in Hlen1; try lia.
    simpl in Hd1. rewrite andb_true_r in Hd1.
    exists (d9 ++ "-" ++ String d ""). split; [done |].
    rewrite residuals_Cat. apply in_flat_map.
    exists (String "-" (String d "")). split.
    + rewrite residuals_Repeat_Digit. apply in_between_digits.
      exists d9. auto with lia.
    + rewrite residuals_Cat. apply in_flat_map. exists (String d ""). split.
      * by apply in_residuals_Lit.
      * apply in_residuals_Digit. eauto.
Qed.

(** ** The validation engine *)

Lemma fold_errors_dom (inner : list (string * string)) (acc : FormikErrors) :
  dom (fold_left
         (fun errors e =>
            match errors !! e.1 with
            | Some _ => errors
            | None => <[e.1 := e.2]> errors
            end)
         inner acc)
  = dom acc ∪ list_to_set inner.*1.
Proof.
  revert acc. induction inner as [|[path msg] inner IH]; intros acc; simpl.
  - set_solver.
  - rewrite IH. destruct (acc !! path) eqn:Hacc; simpl.
    + apply elem_of_dom_2 in Hacc. set_solver.
    + rewrite dom_insert_L. set_solver.
Qed.

Lemma yupToFormErrors_dom (inner : list (string * string)) :
  dom (yupToFormErrors inner) = list_to_set inner.*1.
Proof. unfold yupToFormErrors. rewrite fold_errors_dom. set_solver. Qed.

Lemma yupToFormErrors_empty (inner : list (string * string)) :
  yupToFormErrors inner = ∅ ↔ inner = [].
Proof.
  split; [| by intros ->].
  intros H. apply (f_equal dom) in H. rewrite yupToFormErrors_dom, dom_empty_L in H.
  destruct inner as [|e inner]; [done | set_solver].
Qed.

Lemma field_path {A : Type} (path : string) (v : A) (tests : list (test A))
    (e : string * string) :
  e ∈ field path v tests → e.1 = path.
Proof.
  unfold field. intros (t & _ & Ht)%list_elem_of_omap.
  destruct (t v); simpl in Ht; [by injection Ht as <- | done].
Qed.

Lemma validationSchema_paths (s : Z) (v : KycFormValues) (e : string * string) :
  e ∈ validationSchema s v → e.1 ∈ step_fields s.
Proof.
  unfold validationSchema, step_fields.
  destruct s as [|[[]|[]|]|]; try (by intros ?%elem_of_nil).
  - intros [->%field_path | [->%field_path | ->%field_path]%elem_of_app]%elem_of_app;
      set_solver.
  - intros ->%field_path. set_solver.
  - intros [->%field_path | ->%field_path]%elem_of_app; set_solver.
Qed.

Lemma number_field_nil (n : string) :
  field "number" (prepare n)
    [required "Ghana Card Number is required";
     matches ghana_card_re "Invalid Ghana Card Number format"] = []
  ↔ spec_ghana_card_format n.
Proof.
  rewrite <- ghana_card_re_spec. unfold field, prepare, required, matches.
  destruct (decide (n = "")) as [-> | Hn]; simpl; [done |].
  destruct (test_anchored ghana_card_re n); simpl; done.
Qed.

Lemma momo_number_field_nil (n : string) :
  field "momo.number" (prepare n)
    [matches momo_number_re "Invalid phone number";
     required "Phone number is required"] = []
  ↔ spec_momo_number_format n.
Proof.
  rewrite <- momo_number_re_spec. unfold field, prepare, required, matches.
  destruct (decide (n = "")) as [-> | Hn]; simpl; [done |].
  destruct (test_anchored momo_number_re n); simpl; done.
Qed.

Lemma required_string_field_nil (path msg s : string) :
  field path (prepare s) [required msg] = [] ↔ s ≠ "".
Proof.
  unfold field, prepare, required.
  destruct (decide (s = "")) as [-> | Hs]; simpl; done.
Qed.

Lemma required_file_field_nil (path msg : string) (f : option File) :
  field path f [required msg] = [] ↔ is_Some f.
Proof.
  unfold field, required. destruct f; simpl; split; try done; eauto.
Qed.

Lemma validationSchema_nil (s : Z) (v : KycFormValues) :
  0 ≤ s ≤ 2 → validationSchema s v = [] ↔ spec_rules s v.
Proof.
  intros Hs. assert (s = 0 ∨ s = 1 ∨ s = 2) as [-> | [-> | ->]] by lia;
    unfold validationSchema, spec_rules.
  - rewrite !app_nil, number_field_nil, !required_file_field_nil. done.
  - rewrite app_nil, required_string_field_nil, momo_number_field_nil. done.
  - apply required_file_field_nil.
Qed.

Lemma validate_empty (s : Z) (v : KycFormValues) :
  0 ≤ s ≤ 2 → validate s v = ∅ ↔ spec_rules s v.
Proof.
  intros Hs. unfold validate. by rewrite yupToFormErrors_empty, validationSchema_nil.
Qed.

Lemma validate_dom (s : Z) (v : KycFormValues) :
  dom (validate s v) ⊆ step_fields s.
Proof.
  unfold validate. rewrite yupToFormErrors_dom. intros path Hpath.
  apply elem_of_list_to_set, list_elem_of_fmap in Hpath as (e & -> & He).
  by apply validationSchema_paths in He.
Qed.

Lemma step_fields_disjoint (s s' : Z) : s ≠ s' → step_fields s ## step_fields s'.
Proof.
  intros Hne. unfold step_fields.
  destruct s as [|[[]|[]|]|], s' as [|[[]|[]|]|]; try done; set_solver.
Qed.

(** C7. For every values record and every step [s] in 0..2: the
    validator of step [s] returns the empty mapping when the rules of
    that step hold; when they do not it returns a non-empty mapping whose
    keys are among the fields of step [s]; and no field of another step
    is ever a key. *)
Theorem C7_validate_contract (v : KycFormValues) (s : Z) :
  0 ≤ s ≤ 2 →
  (spec_rules s v → validate s v = ∅) ∧
  (¬ spec_rules s v → validate s v ≠ ∅ ∧ dom (validate s v) ⊆ step_fields s) ∧
  (∀ s', s' ≠ s → dom (validate s v) ## step_fields s').
Proof.
  intros Hs. pose proof (validate_dom s v) as Hdom. repeat split.
  - by apply validate_empty.
  - by rewrite validate_empty.
  - done.
  - intros s' Hne. pose proof (step_fields_disjoint s s'). set_solver.
Qed.

Lemma C7_validate_contract_witness :
  0 ≤ 0 ≤ 2 ∧ validate 0 initialValues ≠ ∅ ∧
  dom (validate 0 initialValues) ⊆ step_fields 0.
Proof.
  split; [lia |].
  apply (C7_validate_contract initialValues 0); [lia |].
  simpl. intros (_ & [f Hf] & _). discriminate Hf.
Defined.

(** ** Back *)

(** C9. [back] takes step [n > 0] to [n - 1] and leaves step 0 where it
    is; it is offered whatever the errors and the verification cells are
    (the control is there on a step above 0 unless a submission is
    loading); it changes no field value, runs no validation (Formik's
    values, errors and touched marks are the same), performs no effect and
    leaves the verification cells alone. *)
Theorem C9_handleBack (st : State) :
  (currentStep st > 0 → currentStep (handleBack st) = currentStep st - 1) ∧
  (currentStep st = 0 → handleBack st = st) ∧
  (form_shown st = true → currentStep st > 0 → loading st = false →
   step ClickBack st = Some (handleBack st, [])) ∧
  formik (handleBack st) = formik st ∧
  ghanaCardVerified (handleBack st) = ghanaCardVerified st ∧
  verifyingGhanaCard (handleBack st) = verifyingGhanaCard st ∧
  ghanaCardError (handleBack st) = ghanaCardError st ∧
  verificationState (handleBack st) = verificationState st ∧
  submissionState (handleBack st) = submissionState st.
Proof.
  destruct st as [n ld er su gv vg ge ss fn sv fk sb].
  unfold handleBack, verificationState, submissionState; simpl.
  repeat apply conj; try reflexivity.
  - lia.
  - intros ->. reflexivity.
  - intros Hshown Hn ->. unfold form_shown in *. simpl in *.
    rewrite Hshown. simpl. rewrite bool_decide_eq_true_2 by done. reflexivity.
Qed.

Lemma C9_handleBack_witness :
  currentStep (handleBack (setCurrentStep (fun _ => 2) initialState)) = 2 - 1.
Proof.
  apply (proj1 (C9_handleBack (setCurrentStep (fun _ => 2) initialState))).
  simpl. lia.
Defined.

(** ** Submission *)

(** C10, as amended. A submission fulfilled with a body object that
    lacks optional fields ends in the success state all the same: without
    [full_name] the name shown is empty, without [message] the success
    text and the toast are "KYC Completed!"; the snapshot is the
    submitted values and no error is set. *)
Theorem C10_defaults (values : KycFormValues) (d : Kyc.t) (st : State) :
  let r := onSubmit_resolved values (mkResponse (Some d)) st in
  (Kyc.full_name d = None → fullName r.1 = "") ∧
  (Kyc.message d = None →
   success r.1 = "KYC Completed!" ∧ r.2 = [ToastSuccess "KYC Completed!"]) ∧
  showSuccessScreen r.1 = true ∧
  submittedValues r.1 = Some values ∧
  loading r.1 = false ∧
  error r.1 = error st ∧
  submissionState r.1 = Succeeded (success r.1) (fullName r.1) (Some values).
Proof.
  destruct st as [n ld er su gv vg ge ss fn sv fk sb], d as [msg name].
  unfold submissionState; simpl. repeat apply conj; try reflexivity.
  - intros ->. reflexivity.
  - by intros ->.
Qed.

Lemma C10_defaults_witness :
  fullName (onSubmit_resolved initialValues
              (mkResponse (Some (Kyc.mk None None))) initialState).1 = "".
Proof.
  exact (proj1 (C10_defaults initialValues (Kyc.mk None None) initialState) eq_refl).
Defined.

(** C10, as stated, fails: the call fulfils with no body object
    ([data] is [null]); the name falls back to the empty string but
    reading the message throws, and the page ends in the failed state
    with the thrown error's text instead of the success state with the
    default message. *)
Lemma C10_counterexample :
  ∃ st out,
    run (submit_trace ++ [SubmitResolved 0 (mkResponse None)]) initialState
      = Some (st, out) ∧
    fullName st = "" ∧
    success st ≠ "KYC Completed!" ∧
    showSuccessScreen st = false ∧
    submittedValues st = None ∧
    submissionState st = SFailed "Cannot read properties of null (reading 'message')" ∧
    last out = Some (ToastError "Cannot read properties of null (reading 'message')").
Proof. eexists _, _. split; [vm_compute; reflexivity |]. done. Qed.

(** ** What holds in every state the page can reach *)

Lemma guard_Some {A : Type} (b : bool) (x y : A) :
  guard b x = Some y ↔ b = true ∧ x = y.
Proof.
  destruct b; simpl; split.
  - intros [= ->]. done.
  - intros [_ ->]. done.
  - done.
  - intros [[=] _].
Qed.

Lemma is_Some_None_false {A : Type} : is_Some (@None A) ↔ False.
Proof. split; [intros [? ?]; done | done]. Qed.

Ltac step_cases :=
  repeat match goal with
    | H : _ && _ = true |- _ => apply andb_true_iff in H as [? ?]
    | H : negb _ = true |- _ => apply negb_true_iff in H
    | H : _ || _ = false |- _ => apply orb_false_iff in H as [? ?]
    | H : bool_decide _ = true |- _ => apply bool_decide_eq_true in H
    | H : bool_decide _ = false |- _ => apply bool_decide_eq_false in H
    | H : guard _ _ = Some _ |- _ => apply guard_Some in H as [? ?]
    | H : (_, _) = (_, _) |- _ => injection H as ? ?
    end.

Ltac inv_fin :=
  repeat match goal with
    | H : ?a && bool_decide _ = false |- _ => destruct a; simpl in H; step_cases
    end;
  intuition (try discriminate; try lia; try congruence; eauto;
             try match goal with H : is_Some None |- _ => by destruct H end).

Lemma step_Inv (e : Event) (st st' : State) (out : list Effect) :
  Inv st → step e st = Some (st', out) → Inv st'.
Proof.
  destruct st as [n ld er su gv vg ge ss fn sv fk sb].
  unfold Inv; simpl. intros (Hn & Hvg & Hld & Hss) Hstep.
  destruct e; simpl in Hstep;
    unfold on_step, form_shown, handleNext_start, handleNext_resolved,
      handleNext_rejected, handleSubmit, onSubmit_start, onSubmit_rejected,
      onSubmit_resolved, resumed in Hstep;
    simpl in Hstep.
  1-5: (step_cases; subst; simpl; inv_fin).
  - (* ClickContinue *)
    step_cases. subst ld vg.
    destruct (decide (validate n (values fk) = ∅)) as [He | He].
    + destruct (bool_decide (n = 0) && negb gv) eqn:Hgate;
        step_cases; subst; simpl; inv_fin.
      all: try (apply andb_false_iff in Hgate as [Hg | Hg]; step_cases; subst; inv_fin).
    + step_cases; subst; simpl. inv_fin.
  - (* ClickBack *)
    step_cases. subst; simpl. inv_fin.
  - (* ClickSubmit *)
    step_cases. subst ld. simpl in *.
    destruct (decide (validate n (values fk) = ∅)) as [He | He];
      step_cases; subst; simpl; inv_fin.
    by destruct sb.
  - (* PressEnter *)
    step_cases. subst n. simpl in *.
    destruct (decide (validate 0 (values fk) = ∅)) as [He | He];
      step_cases; subst; simpl; inv_fin.
    by destruct sb.
  - (* VerifyResolved *)
    step_cases. subst vg. destruct Hvg as (-> & -> & ->); [done |].
    destruct (from_option Verify.verified false (data res));
      step_cases; subst; simpl; inv_fin.
  - (* VerifyRejected *)
    step_cases. subst vg. destruct Hvg as (-> & -> & ->); [done |].
    subst; simpl. inv_fin.
  - (* SubmitResolved *)
    destruct (sb !! i) as [values |]; simpl in Hstep; [| done].
    destruct (data res); simpl in Hstep; injection Hstep as <- <-; simpl; inv_fin.
  - (* SubmitRejected *)
    step_cases. subst; simpl. inv_fin.
Qed.

Lemma run_Inv (es : list Event) (st st' : State) (out : list Effect) :
  Inv st → run es st = Some (st', out) → Inv st'.
Proof.
  revert st out. induction es as [|e es IH]; intros st out Hst Hrun; simpl in Hrun.
  - by injection Hrun as <- <-.
  - destruct (step e st) as [[st1 out1] |] eqn:Hstep; simpl in Hrun; [| done].
    destruct (run es st1) as [[st2 out2] |] eqn:Hrest; simpl in Hrun; [| done].
    injection Hrun as <- <-. eapply IH; [| done]. by eapply step_Inv.
Qed.

Lemma initialState_Inv : Inv initialState.
Proof.
  unfold Inv; simpl. repeat apply conj; try done.
Qed.

Lemma reachable_Inv (st : State) : reachable st → Inv st.
Proof. intros (es & out & Hrun). eapply run_Inv; [apply initialState_Inv | done]. Qed.

(** ** Failed submissions *)

Lemma state_after_reachable (es : list Event) :
  is_Some (run es initialState) → reachable (state_after es).
Proof.
  unfold state_after. intros [[st out] Hrun]. rewrite Hrun. by exists es, out.
Qed.

Lemma catch_message_tiers (generic : string)
    (response : option (AxiosResponse Err.t)) (err_message : string) :
  let m := catch_message generic (AxiosError response err_message) in
  (∀ b, body_message response = Some b → b ≠ "" → m = b) ∧
  (body_message response = None ∨ body_message response = Some "" →
   m = if decide (err_message = "") then generic else err_message).
Proof.
  unfold catch_message, body_message, or_opt, or_str. split.
  - intros b -> Hb. by rewrite decide_False.
  - intros [-> | ->]; [done | by rewrite decide_True].
Qed.

(** C6, as amended. The [i]-th suspended submission of a page that shows
    the form fails with an axios error (an error response, or no response
    at all). Then the rejection is handled: the error cell gets the
    message of the error body when there is a non-empty one, otherwise
    the error's own message when that is non-empty, otherwise
    "Failed to complete KYC"; the submission state is Failed with that
    message and a toast shows it; the handler changes neither the step
    nor Formik's values, errors and touched marks, and the call is no
    longer suspended; when the page is on step 2 it is still on step 2
    and the submit control is offered again. *)
Theorem C6_submission_failure (st : State) (i : nat)
    (response : option (AxiosResponse Err.t)) (err_message : string) :
  is_Some (submitting st !! i) → showSuccessScreen st = false →
  let r := resumed i (onSubmit_rejected (AxiosError response err_message) st) in
  step (SubmitRejected i (AxiosError response err_message)) st = Some r ∧
  (∀ b, body_message response = Some b → b ≠ "" → error r.1 = b) ∧
  (body_message response = None ∨ body_message response = Some "" →
   error r.1 = if decide (err_message = "") then "Failed to complete KYC"
               else err_message) ∧
  submissionState r.1 = SFailed (error r.1) ∧
  r.2 = [ToastError (error r.1)] ∧
  currentStep r.1 = currentStep st ∧
  formik r.1 = formik st ∧
  submitting r.1 = delete i (submitting st) ∧
  (currentStep st = 2 →
   currentStep r.1 = 2 ∧ step ClickSubmit r.1 = Some (handleSubmit r.1)).
Proof.
  intros Hsub Hss r.
  pose proof (catch_message_tiers "Failed to complete KYC" response err_message)
    as [Hbody Hrest].
  destruct st as [n ld er su gv vg ge ss fn sv fk sb]; simpl in *. subst ss.
  assert (catch_message "Failed to complete KYC" (AxiosError response err_message) ≠ "")
    as Hne.
  { unfold catch_message, or_opt, or_str. repeat case_match; done. }
  subst r. unfold resumed, onSubmit_rejected, submissionState, form_shown; simpl.
  repeat apply conj; try done.
  - by rewrite bool_decide_eq_true_2.
  - by rewrite decide_False.
  - by intros ->.
Qed.

Lemma C6_submission_failure_witness :
  currentStep
    (resumed 0
       (onSubmit_rejected (AxiosError None "Network Error") (state_after submit_trace))).1
  = 2.
Proof.
  apply (C6_submission_failure (state_after submit_trace) 0 None "Network Error").
  - vm_compute. eauto.
  - vm_compute. reflexivity.
  - vm_compute. reflexivity.
Defined.

(** C6, as stated, fails: the call fails with no response and the error
    cell gets the axios error's own text, not the generic one. *)
Lemma C6_counterexample :
  ∃ st out,
    run (submit_trace ++ [SubmitRejected 0 (AxiosError None "Network Error")]) initialState
      = Some (st, out) ∧
    submissionState st = SFailed "Network Error" ∧
    spec_failure_message "Failed to complete KYC" None = "Failed to complete KYC" ∧
    error st ≠ spec_failure_message "Failed to complete KYC" None.
Proof. eexists _, _. split; [vm_compute; reflexivity |]. done. Qed.

(** ** The verification gate *)

Lemma handleNext_start_gate (st : State) :
  currentStep st = 0 → ghanaCardVerified st = false →
  validate 0 (values (formik st)) = ∅ →
  handleNext_start st =
    (setVerifyingGhanaCard true
       (setGhanaCardError "" (setFormik (setErrors ∅) st)),
     [PostVerifyGhanaCard (number (values (formik st)))]).
Proof.
  destruct st as [n ld er su gv vg ge ss fn sv fk sb]; simpl.
  intros -> -> He. unfold handleNext_start; simpl. rewrite He. done.
Qed.

Lemma handleNext_start_pass (st : State) :
  validate (currentStep st) (values (formik st)) = ∅ →
  currentStep st ≠ 0 ∨ ghanaCardVerified st = true →
  handleNext_start st =
    (setCurrentStep (fun s => s + 1) (setFormik (setErrors ∅) st), []).
Proof.
  destruct st as [n ld er su gv vg ge ss fn sv fk sb]; simpl.
  intros He Hor. unfold handleNext_start; simpl. rewrite He.
  rewrite decide_True by done.
  destruct Hor as [Hn | ->]; [by rewrite bool_decide_eq_false_2 |].
  by rewrite andb_false_r.
Qed.

(** C1, as amended. The page is on step 0, nothing is cached and the
    step-0 fields are valid. Then [next] issues one verification call,
    carrying the current card number, and waits. When the call fulfils
    with [verified] true the step becomes 1 and the outcome is Verified;
    when it fulfils otherwise the step stays 0 and the message shown is
    the body's, or "Ghana Card verification failed." without one; when
    it fails with an axios error the step stays 0 and the message shown
    is the error body's when there is a non-empty one, otherwise the
    error's own message when that is non-empty, otherwise
    "Ghana Card verification failed.". No further call is issued in any
    case. *)
Theorem C1_next_at_step0 (st : State) :
  currentStep st = 0 → ghanaCardVerified st = false →
  validate 0 (values (formik st)) = ∅ →
  let r1 := handleNext_start st in
  r1.2 = [PostVerifyGhanaCard (number (values (formik st)))] ∧
  currentStep r1.1 = 0 ∧
  verificationState r1.1 = VPending ∧
  (∀ res : AxiosResponse Verify.t,
     let r2 := handleNext_resolved res r1.1 in
     if from_option Verify.verified false (data res) then
       currentStep r2.1 = 1 ∧ verificationState r2.1 = Verified ∧ r2.2 = []
     else
       currentStep r2.1 = 0 ∧
       (∀ b, data res ≫= Verify.message = Some b → b ≠ "" →
             ghanaCardError r2.1 = b) ∧
       (data res ≫= Verify.message = None ∨ data res ≫= Verify.message = Some "" →
        ghanaCardError r2.1 = "Ghana Card verification failed.") ∧
       verificationState r2.1 = VFailed (ghanaCardError r2.1) ∧
       r2.2 = [ToastError (ghanaCardError r2.1)]) ∧
  (∀ response err_message,
     let r2 := handleNext_rejected (AxiosError response err_message) r1.1 in
     currentStep r2.1 = 0 ∧
     (∀ b, body_message response = Some b → b ≠ "" → ghanaCardError r2.1 = b) ∧
     (body_message response = None ∨ body_message response = Some "" →
      ghanaCardError r2.1 =
        if decide (err_message = "") then "Ghana Card verification failed."
        else err_message) ∧
     verificationState r2.1 = VFailed (ghanaCardError r2.1) ∧
     r2.2 = [ToastError (ghanaCardError r2.1)]).
Proof.
  intros Hn Hgv He r1. subst r1. rewrite handleNext_start_gate by done.
  destruct st as [n ld er su gv vg ge ss fn sv fk sb]; simpl in *. subst n gv.
  unfold verificationState; simpl. repeat apply conj; try done.
  - intros res. unfold handleNext_resolved.
    destruct (from_option Verify.verified false (data res)); simpl; [done |].
    unfold or_opt, or_str. repeat apply conj; try done.
    + intros b -> Hb. by rewrite decide_False.
    + intros [-> | ->]; [done | by rewrite decide_True].
    + rewrite decide_False; [done |]. repeat case_match; done.
  - intros response err_message.
    pose proof (catch_message_tiers "Ghana Card verification failed."
                  response err_message) as [Hbody Hrest].
    unfold handleNext_rejected; simpl. repeat apply conj; try done.
    rewrite decide_False; [done |].
    unfold catch_message, or_opt, or_str. repeat case_match; done.
Qed.

Lemma C1_next_at_step0_witness :
  (handleNext_start (state_after fill_step0)).2 =
    [PostVerifyGhanaCard (number (values (formik (state_after fill_step0))))].
Proof.
  apply (C1_next_at_step0 (state_after fill_step0)); vm_compute; reflexivity.
Defined.

(** C1, as stated, fails: the verification call fails with no response
    and the message shown is the axios error's own text, not the generic
    one. *)
Lemma C1_counterexample :
  ∃ st out,
    run (fill_step0 ++ [ClickContinue; VerifyRejected (AxiosError None "Network Error")])
      initialState = Some (st, out) ∧
    currentStep st = 0 ∧
    verificationState st = VFailed "Network Error" ∧
    spec_failure_message "Ghana Card verification failed." None
      = "Ghana Card verification failed." ∧
    ghanaCardError st ≠ spec_failure_message "Ghana Card verification failed." None.
Proof. eexists _, _. split; [vm_compute; reflexivity |]. done. Qed.

(** What the page caches when no call is in flight. On step 0: once the
    outcome is Verified and the step-0 fields are valid, [next] makes no
    call and moves to step 1; every edit of the card number clears the
    cached outcome and its message, which with no call in flight is the
    state NotStarted, and the next [next] on valid fields calls the gate
    with the new number; after a failed outcome (a response that is not
    verified, or a rejected call) nothing is cached and [next] calls the
    gate again. *)
Lemma cache_with_no_call_in_flight (st : State) :
  currentStep st = 0 →
  (ghanaCardVerified st = true → validate 0 (values (formik st)) = ∅ →
   (handleNext_start st).2 = [] ∧ currentStep (handleNext_start st).1 = 1) ∧
  (∀ s,
     ghanaCardVerified (onChange_number s st) = false ∧
     ghanaCardError (onChange_number s st) = "" ∧
     (verificationState st ≠ VPending →
      verificationState (onChange_number s st) = NotStarted) ∧
     (validate 0 (values (formik (onChange_number s st))) = ∅ →
      (handleNext_start (onChange_number s st)).2 = [PostVerifyGhanaCard s])) ∧
  (ghanaCardVerified st = false → validate 0 (values (formik st)) = ∅ →
   (∀ res, from_option Verify.verified false (data res) = false →
      ghanaCardVerified (handleNext_resolved res st).1 = false ∧
      (handleNext_start (handleNext_resolved res st).1).2 =
        [PostVerifyGhanaCard (number (values (formik st)))]) ∧
   (∀ err,
      ghanaCardVerified (handleNext_rejected err st).1 = false ∧
      (handleNext_start (handleNext_rejected err st).1).2 =
        [PostVerifyGhanaCard (number (values (formik st)))])).
Proof.
  intros Hn. repeat apply conj.
  - intros Hgv He. rewrite handleNext_start_pass by (rewrite ?Hn; auto).
    destruct st; simpl in *. by subst.
  - intros s. repeat apply conj.
    + by destruct st.
    + by destruct st.
    + unfold verificationState.
      destruct st as [n ld er su gv vg ge ss fn sv fk sb]; simpl. by destruct vg.
    + intros He. rewrite handleNext_start_gate; destruct st; simpl in *; by subst.
  - intros Hgv He. split.
    + intros res Hres. unfold handleNext_resolved. rewrite Hres.
      rewrite handleNext_start_gate; destruct st; simpl in *; by subst.
    + intros err. unfold handleNext_rejected.
      rewrite handleNext_start_gate; destruct st; simpl in *; by subst.
Qed.

Lemma stale_success_is_cached (st : State) :
  verifyingGhanaCard st = true → currentStep st = 0 →
  loading st = false → showSuccessScreen st = false →
  validate 0 (values (formik st)) = ∅ →
  ∃ st',
    run [VerifyResolved verified_ok; ClickBack; ClickContinue] st = Some (st', []) ∧
    values (formik st') = values (formik st) ∧
    verificationState st' = Verified ∧
    currentStep st' = 1.
Proof.
  destruct st as [n ld er su gv vg ge ss fn sv fk sb]; simpl.
  intros -> -> -> -> He.
  unfold handleNext_resolved, form_shown, handleBack, handleNext_start; simpl.
  change (0 `max` (0 + 1 - 1)) with 0. rewrite He. rewrite decide_True by done.
  simpl. eexists. split; [reflexivity |]. by destruct fk.
Qed.

(** C2 on the code. The number is edited while the verification call
    for "GHA-123456789-1" is in flight. The edit does not give the state
    NotStarted: the call stays pending. When the call then fulfils with
    [verified] true the success is cached for the new number, whatever
    well-formed number that is: after going back, [next] on step 0 makes
    no call and moves to step 1, so no call is ever made for the new
    number. *)
Theorem C2_edit_in_flight_not_reset (n' : string) :
  spec_ghana_card_format n' →
  ∃ st,
    run (fill_step0 ++ [ClickContinue; TypeNumber n']) initialState
      = Some (st, [PostVerifyGhanaCard "GHA-123456789-1"]) ∧
    number (values (formik st)) = n' ∧
    verificationState st = VPending ∧
    ∃ st',
      run [VerifyResolved verified_ok; ClickBack; ClickContinue] st = Some (st', []) ∧
      number (values (formik st')) = n' ∧
      verificationState st' = Verified ∧
      currentStep st' = 1.
Proof.
  intros Hfmt.
  assert (validate 0 (mkValues n' (Some (Blob 1)) (Some (Blob 2))
                        (Momo.mk "+233" "") None) = ∅) as He.
  { apply (validate_empty 0); [lia |]. simpl. eauto. }
  eexists. split; [reflexivity |]. repeat apply conj; try reflexivity.
  match goal with
  | |- ∃ st', run _ ?st = _ ∧ _ =>
      destruct (stale_success_is_cached st) as (st' & Hrun & Hv & Hvs & Hn);
        [reflexivity | reflexivity | reflexivity | reflexivity | exact He |]
  end.
  exists st'. rewrite Hv. done.
Qed.

Lemma C2_edit_in_flight_not_reset_witness :
  ∃ st,
    run (fill_step0 ++ [ClickContinue; TypeNumber "GHA-987654321-0"]) initialState
      = Some (st, [PostVerifyGhanaCard "GHA-123456789-1"]) ∧
    number (values (formik st)) = "GHA-987654321-0" ∧
    verificationState st = VPending ∧
    ∃ st',
      run [VerifyResolved verified_ok; ClickBack; ClickContinue] st = Some (st', []) ∧
      number (values (formik st')) = "GHA-987654321-0" ∧
      verificationState st' = Verified ∧
      currentStep st' = 1.
Proof.
  apply (C2_edit_in_flight_not_reset "GHA-987654321-0").
  exists "987654321", "0". vm_compute. auto.
Defined.

(** ** A response that arrives after the number has changed *)

(** C3 on the code. A call is issued for "GHA-123456789-1", the number
    is changed to "GHA-987654321-0" while the call is in flight, and the
    call then fulfils with [verified] true: the page records Verified and
    moves to step 1 although the only call made was for the old number. *)
Theorem C3_stale_success_is_recorded :
  ∃ st,
    run (stale_trace "GHA-987654321-0") initialState
      = Some (st, [PostVerifyGhanaCard "GHA-123456789-1"]) ∧
    number (values (formik st)) = "GHA-987654321-0" ∧
    verificationState st = Verified ∧
    currentStep st = 1.
Proof. eexists. split; [vm_compute; reflexivity |]. done. Qed.

(** C5 on the code. After the same interleaving with a number that does
    not even match the pattern, the two later steps are passed and the
    submission call is issued, carrying that number, in a state where the
    validator of step 0 reports an error. *)
Theorem C5_submit_with_invalid_step0 :
  ∃ st out fd,
    run unchecked_submit_trace initialState = Some (st, out) ∧
    last out = Some (PostCompleteKyc fd) ∧
    fd !! 0%nat = Some ("number", Text "bogus") ∧
    validate 0 (values (formik st)) !! "number"
      = Some "Invalid Ghana Card Number format".
Proof. eexists _, _, _. split; [vm_compute; reflexivity |]. done. Qed.

(** ** Submission without that interleaving *)

Lemma run_quiet_run (es : list Event) (st : State) (r : State * list Effect) :
  run_quiet es st = Some r → run es st = Some r.
Proof.
  revert st r. induction es as [|e es IH]; intros st r; simpl; [done |].
  destruct (is_edit e && verifyingGhanaCard st); [done |].
  destruct (step e st) as [[st1 out1] |]; simpl; [| done].
  destruct (run_quiet es st1) as [r2 |] eqn:Hq; simpl; [| done].
  by rewrite (IH _ _ Hq).
Qed.

Lemma step_passed_valid (e : Event) (st st' : State) (out : list Effect) :
  Inv st → passed_valid st → is_edit e && verifyingGhanaCard st = false →
  step e st = Some (st', out) → passed_valid st'.
Proof.
  destruct st as [n ld er su gv vg ge ss fn sv fk sb].
  unfold Inv, passed_valid; simpl.
  intros (Hn & Hvg & Hld & Hss) [Hv0 Hv1] Hquiet Hstep.
  destruct e; simpl in Hstep, Hquiet;
    unfold on_step, form_shown, handleNext_start, handleNext_resolved,
      handleNext_rejected, handleSubmit, onSubmit_start, onSubmit_rejected,
      onSubmit_resolved, resumed in Hstep;
    simpl in Hstep.
  1-3: (step_cases; subst; simpl; split; intros; [naive_solver lia | lia]).
  - (* TypeMomoNumber *)
    step_cases; subst; simpl. split; [| lia]. intros _. apply Hv0. lia.
  - (* PickSelfie *)
    step_cases; subst; simpl. split; intros _; [apply Hv0 | apply Hv1]; lia.
  - (* ClickContinue *)
    step_cases. subst ld vg.
    destruct (decide (validate n (values fk) = ∅)) as [He | He].
    + destruct (bool_decide (n = 0) && negb gv) eqn:Hgate;
        step_cases; subst; simpl.
      * split; [done | lia].
      * assert (n = 0 ∨ n = 1) as [-> | ->] by (simpl in *; lia).
        -- split; [done | lia].
        -- split; [intros _; apply Hv0; lia | done].
    + step_cases; subst; simpl. done.
  - (* ClickBack *)
    step_cases; subst; simpl. split.
    + intros [Hge | ->]; [apply Hv0; lia |]. destruct Hvg; [done | lia].
    + intros Hge. apply Hv1. lia.
  - (* ClickSubmit *)
    step_cases. subst ld.
    destruct (decide (validate n (values fk) = ∅)) as [He | He];
      step_cases; subst; simpl; done.
  - (* PressEnter *)
    step_cases.
    destruct (decide (validate n (values fk) = ∅)) as [He | He];
      step_cases; subst; simpl; done.
  - (* VerifyResolved *)
    step_cases. subst vg. destruct Hvg as (-> & -> & ->); [done |].
    destruct (from_option Verify.verified false (data res));
      step_cases; subst; simpl; (split; [intros _; by apply Hv0; right | lia]).
  - (* VerifyRejected *)
    step_cases. subst vg. destruct Hvg as (-> & -> & ->); [done |].
    subst; simpl. split; [| lia]. intros [H | H]; [lia | done].
  - (* SubmitResolved *)
    destruct (sb !! i) as [values |]; simpl in Hstep; [| done].
    destruct (data res); simpl in Hstep; injection Hstep as <- <-; simpl; done.
  - (* SubmitRejected *)
    step_cases; subst; simpl. done.
Qed.

Lemma run_quiet_passed_valid (es : list Event) (st st' : State) (out : list Effect) :
  Inv st → passed_valid st → run_quiet es st = Some (st', out) →
  Inv st' ∧ passed_valid st'.
Proof.
  revert st out. induction es as [|e es IH]; intros st out HI HP Hrun; simpl in Hrun.
  - by injection Hrun as <- <-.
  - destruct (is_edit e && verifyingGhanaCard st) eqn:Hq; [done |].
    destruct (step e st) as [[st1 out1] |] eqn:Hstep; simpl in Hrun; [| done].
    destruct (run_quiet es st1) as [[st2 out2] |] eqn:Hrest; simpl in Hrun; [| done].
    injection Hrun as <- <-. eapply IH; [| | done].
    + by eapply step_Inv.
    + by eapply step_passed_valid.
Qed.

(** Which events issue the submission call, and what they have checked:
    the submit button, on step 2, after the step-2 schema; Enter in the
    card-number input, on step 0, after the step-0 schema. The payload is
    built from the current values. *)
Lemma step_submit_payload (e : Event) (st st' : State) (out : list Effect)
    (fd : FormData) :
  step e st = Some (st', out) → PostCompleteKyc fd ∈ out →
  fd = build_formData (values (formik st)) ∧
  (e = ClickSubmit ∧ currentStep st = 2 ∧ validate 2 (values (formik st)) = ∅ ∨
   e = PressEnter ∧ currentStep st = 0 ∧ validate 0 (values (formik st)) = ∅).
Proof.
  destruct st as [k ld er su gv vg ge ss fn sv fk sb].
  intros Hstep Hin. simpl in *.
  destruct e; simpl in Hstep;
    unfold on_step, form_shown, handleNext_start, handleNext_resolved,
      handleNext_rejected, handleSubmit, onSubmit_start, onSubmit_rejected,
      onSubmit_resolved, resumed in Hstep;
    simpl in Hstep.
  1-5: (step_cases; subst; by apply elem_of_nil in Hin).
  - step_cases. repeat case_match; step_cases; subst;
      try (by apply elem_of_nil in Hin);
      by apply list_elem_of_singleton in Hin.
  - step_cases; subst. by apply elem_of_nil in Hin.
  - step_cases. assert (k = 2) as -> by (simpl in *; lia).
    destruct (decide (validate 2 (values fk) = ∅)) as [He | He];
      step_cases; subst; [| by apply elem_of_nil in Hin].
    apply list_elem_of_singleton in Hin as [= ->]. simpl. auto.
  - step_cases. subst k.
    destruct (decide (validate 0 (values fk) = ∅)) as [He | He];
      step_cases; subst; [| by apply elem_of_nil in Hin].
    apply list_elem_of_singleton in Hin as [= ->]. simpl. auto.
  - step_cases. repeat case_match; step_cases; subst;
      try (by apply elem_of_nil in Hin);
      by apply list_elem_of_singleton in Hin.
  - step_cases; subst. by apply list_elem_of_singleton in Hin.
  - destruct (sb !! i); simpl in Hstep; [| done].
    destruct (data res); simpl in Hstep; injection Hstep as <- <-;
      by apply list_elem_of_singleton in Hin.
  - step_cases; subst. by apply list_elem_of_singleton in Hin.
Qed.

(** X5. When no field is edited while a verification call is in flight,
    a submission call is issued in one of two ways only, with the payload
    of the current values: by the submit button on step 2, from a state
    in which the validators of all three steps report nothing; or by
    Enter in the card-number input on step 0, from a state in which the
    validator of step 0 reports nothing (those of steps 1 and 2 not
    having been run). *)
Theorem X5_quiet_submission_validated (es : list Event) (e : Event)
    (st st' : State) (out out' : list Effect) (fd : FormData) :
  run_quiet es initialState = Some (st, out) →
  step e st = Some (st', out') →
  PostCompleteKyc fd ∈ out' →
  fd = build_formData (values (formik st)) ∧
  (e = ClickSubmit ∧ currentStep st = 2 ∧
   validate 0 (values (formik st)) = ∅ ∧
   validate 1 (values (formik st)) = ∅ ∧
   validate 2 (values (formik st)) = ∅
   ∨
   e = PressEnter ∧ currentStep st = 0 ∧
   validate 0 (values (formik st)) = ∅).
Proof.
  intros Hrun Hstep Hin.
  destruct (run_quiet_passed_valid es initialState st out) as [HI [Hv0 Hv1]];
    [apply initialState_Inv | | done |].
  { unfold passed_valid; simpl. split; [intros [? | ?]; [lia | done] | lia]. }
  destruct (step_submit_payload _ _ _ _ _ Hstep Hin)
    as [-> [(-> & Hn & He) | (-> & Hn & He)]]; (split; [done |]).
  - left. repeat apply conj; try done; [apply Hv0 | apply Hv1]; lia.
  - right. done.
Qed.

(** ** The snapshot *)

Section Snapshot.
Local Open Scope list_scope.

Lemma read_app (h ext : list Store.Obj) (l : Store.loc) (x : KycFormValues) :
  Store.read h l = Some x → Store.read (h ++ ext) l = Some x.
Proof.
  unfold Store.read. intros H.
  destruct (h !! l) as [[n f b mo s | ? ?] |] eqn:Hl; try done.
  destruct (h !! mo) as [[? ? ? ? ? | cc y] |] eqn:Hmo; try done.
  by rewrite (lookup_app_l_Some _ _ _ _ Hl), (lookup_app_l_Some _ _ _ _ Hmo).
Qed.

Lemma setIn_spec (m : Store.Mutation) (h : list Store.Obj) (v : Store.loc)
    (x : KycFormValues) :
  Store.read h v = Some x →
  ∃ ext, (Store.setIn m h v).1 = (h ++ ext)%list ∧
         Store.read (h ++ ext) (Store.setIn m h v).2 = Some (Store.pure m x).
Proof.
  unfold Store.read, Store.setIn. intros H.
  destruct (h !! v) as [[n f b mo s | ? ?] |] eqn:Hv; try done.
  destruct (h !! mo) as [[? ? ? ? ? | cc y] |] eqn:Hmo; try done.
  injection H as <-.
  assert (∀ o, (h ++ [o]) !! length h = Some o) as Hnew.
  { intros o. rewrite lookup_app_r by lia. by rewrite Nat.sub_diag. }
  assert (∀ o, (h ++ [o]) !! mo = Some (Store.MomoObj cc y)) as Hold.
  { intros o. by apply lookup_app_l_Some. }
  assert (Store.read h v =
            Some (mkValues n f b (Momo.mk cc y) s)) as Hsame.
  { unfold Store.read. by rewrite Hv, Hmo. }
  destruct m as [n' | f' | b' | y' | s']; simpl.
  - destruct (decide (n = n')) as [<- | Hne]; simpl.
    + exists []. rewrite app_nil_r. done.
    + exists [Store.ValuesObj n' f b mo s]. by rewrite Hnew, Hold.
  - destruct (decide (f = f')) as [<- | Hne]; simpl.
    + exists []. rewrite app_nil_r. done.
    + exists [Store.ValuesObj n f' b mo s]. by rewrite Hnew, Hold.
  - destruct (decide (b = b')) as [<- | Hne]; simpl.
    + exists []. rewrite app_nil_r. done.
    + exists [Store.ValuesObj n f b' mo s]. by rewrite Hnew, Hold.
  - destruct (decide (y = y')) as [<- | Hne]; simpl.
    + exists []. rewrite app_nil_r. done.
    + exists [Store.MomoObj cc y'; Store.ValuesObj n f b (length h) s].
      split; [by rewrite <- app_assoc |].
      rewrite length_app. simpl length.
      assert (∀ o1 o2, (h ++ [o1; o2]) !! (length h + 1)%nat = Some o2) as ->.
      { intros o1 o2. rewrite lookup_app_r by lia.
        by replace (length h + 1 - length h)%nat with 1%nat by lia. }
      assert (∀ o1 o2, (h ++ [o1; o2]) !! length h = Some o1) as ->.
      { intros o1 o2. rewrite lookup_app_r by lia. by rewrite Nat.sub_diag. }
      done.
  - destruct (decide (s = s')) as [<- | Hne]; simpl.
    + exists []. rewrite app_nil_r. done.
    + exists [Store.ValuesObj n f b mo s']. by rewrite Hnew, Hold.
Qed.

Lemma mutate_spec (m : Store.Mutation) (st : Store.t) (x : KycFormValues) :
  Store.read (Store.heap st) (Store.formik_values st) = Some x →
  Store.read (Store.heap (Store.mutate m st)) (Store.formik_values (Store.mutate m st))
    = Some (Store.pure m x) ∧
  Store.submitting (Store.mutate m st) = Store.submitting st ∧
  Store.submittedValues (Store.mutate m st) = Store.submittedValues st ∧
  ∀ l y, Store.read (Store.heap st) l = Some y →
         Store.read (Store.heap (Store.mutate m st)) l = Some y.
Proof.
  intros Hx. destruct (setIn_spec m _ _ _ Hx) as (ext & Hheap & Hread).
  unfold Store.mutate.
  destruct (Store.setIn m (Store.heap st) (Store.formik_values st)) as [h' v'].
  simpl in *. subst h'. repeat apply conj; try done.
  intros l y. apply read_app.
Qed.

Lemma mutate_all_spec (ms : list Store.Mutation) (st : Store.t) (x : KycFormValues) :
  Store.read (Store.heap st) (Store.formik_values st) = Some x →
  Store.read (Store.heap (mutate_all ms st)) (Store.formik_values (mutate_all ms st))
    = Some (pure_all ms x) ∧
  Store.submitting (mutate_all ms st) = Store.submitting st ∧
  Store.submittedValues (mutate_all ms st) = Store.submittedValues st ∧
  ∀ l y, Store.read (Store.heap st) l = Some y →
         Store.read (Store.heap (mutate_all ms st)) l = Some y.
Proof.
  revert st x. induction ms as [|m ms IH]; intros st x Hx; simpl; [done |].
  destruct (mutate_spec m st x Hx) as (Hx' & Hs & Hv & Hkeep).
  destruct (IH _ _ Hx') as (Hx'' & Hs' & Hv' & Hkeep').
  unfold mutate_all in *. rewrite Hs', Hv', Hs, Hv. repeat apply conj; auto.
Qed.

(** C4. The values are edited, submitted, possibly edited again while
    the call is in flight, and the submission succeeds. The summary then
    shows exactly the submitted values, and whatever edits are applied to
    the live values afterwards, the summary (number, momo fields, the
    three files) stays the same. *)
Theorem C4_snapshot_unaffected (before during after : list Store.Mutation) :
  let submitted := Store.onSubmit_start (mutate_all before Store.init) in
  let succeeded := Store.onSubmit_success (mutate_all during submitted) in
  Store.summary succeeded = Some (pure_all before initialValues) ∧
  Store.summary (mutate_all after succeeded) = Store.summary succeeded ∧
  Store.read (Store.heap (mutate_all after succeeded))
    (Store.formik_values (mutate_all after succeeded))
  = Some (pure_all after (pure_all during (pure_all before initialValues))).
Proof.
  intros submitted succeeded.
  destruct (mutate_all_spec before Store.init initialValues eq_refl)
    as (H0 & _ & _ & _).
  destruct (mutate_all_spec during submitted _ H0) as (H1 & Hs1 & _ & Hkeep1).
  destruct (mutate_all_spec after succeeded _ H1) as (H2 & _ & Hv2 & Hkeep2).
  assert (Store.summary succeeded = Some (pure_all before initialValues)) as Hsum.
  { unfold Store.summary, succeeded. simpl. rewrite Hs1. simpl. by apply Hkeep1. }
  repeat apply conj; [done | | done].
  rewrite Hsum. unfold Store.summary in *. rewrite Hv2.
  destruct (Store.submittedValues succeeded) as [l |]; simpl in *; [| done].
  by apply Hkeep2.
Qed.

End Snapshot.

(** ** Preview handles *)

Section Preview.
Local Open Scope list_scope.
Local Open Scope nat_scope.

Lemma run_cleanup_spec (h : Hook) (b : Browser) :
  run_cleanup h b =
    ({| next_url := next_url b;
        live := from_option (fun url => delete url (live b)) (live b) (cleanup h) |},
     revokes (cleanup h)).
Proof. unfold run_cleanup. destruct (cleanup h), b; reflexivity. Qed.

Lemma apply_Assign_same (p : Page) (slot : string) (file : option File) :
  ¬ changes p slot file → apply_op (Assign slot file) p = (p, []).
Proof.
  unfold changes. intros H. apply dec_stable in H. simpl.
  destruct (slots p !! slot) as [h |] eqn:Hh; simpl in H; [| done].
  unfold useFilePreview. simpl. rewrite decide_True by done.
  rewrite insert_id by done. by destruct p.
Qed.

Lemma apply_Assign_changed (p : Page) (slot : string) (file : option File) :
  changes p slot file →
  let old := handle_of p slot in
  let new := const (next_url (browser p)) <$> file in
  apply_op (Assign slot file) p =
    ({| slots := <[slot := {| deps := Some file; preview := new; cleanup := new |}]>
                   (slots p);
        browser :=
          {| next_url := from_option (fun _ => S (next_url (browser p)))
                           (next_url (browser p)) file;
             live :=
               from_option (fun f => <[next_url (browser p) := f]>) id file
                 (from_option (fun url => delete url (live (browser p)))
                    (live (browser p)) old) |} |},
     revokes old ++ creates new).
Proof.
  unfold changes, handle_of. intros H. simpl.
  assert (deps (default mounted (slots p !! slot)) ≠ Some file) as Hd.
  { destruct (slots p !! slot); simpl in *; done. }
  assert (cleanup (default mounted (slots p !! slot)) = slots p !! slot ≫= cleanup)
    as Hc.
  { destruct (slots p !! slot); done. }
  unfold useFilePreview. rewrite decide_False by done.
  rewrite run_cleanup_spec, Hc. destruct file as [f |]; simpl.
  - done.
  - by rewrite app_nil_r.
Qed.

Lemma apply_Teardown_spec (p : Page) (slot : string) :
  is_Some (slots p !! slot) →
  apply_op (Teardown slot) p =
    ({| slots := delete slot (slots p);
        browser :=
          {| next_url := next_url (browser p);
             live := from_option (fun url => delete url (live (browser p)))
                       (live (browser p)) (handle_of p slot) |} |},
     revokes (handle_of p slot)).
Proof.
  intros [h Hh]. unfold handle_of. simpl. rewrite Hh. simpl.
  by rewrite run_cleanup_spec.
Qed.

Lemma is_Some_delete (m : gmap nat File) (u url : nat) :
  is_Some (delete u m !! url) ↔ url ≠ u ∧ is_Some (m !! url).
Proof.
  destruct (decide (u = url)) as [<- | Hne].
  - rewrite lookup_delete_eq. split; [by intros [? ?] | by intros [? _]].
  - rewrite lookup_delete_ne by done. naive_solver.
Qed.

Lemma teardown_ok (p : Page) (slot : string) :
  page_ok p → page_ok (apply_op (Teardown slot) p).1.
Proof.
  intros (Hlive & Hslots & Hinj & Hbound).
  destruct (slots p !! slot) as [h |] eqn:Hh; [| by simpl; rewrite Hh].
  rewrite apply_Teardown_spec by eauto. simpl.
  assert (∀ s, handle_of {| slots := delete slot (slots p); browser := browser p |} s
               = if decide (s = slot) then None else handle_of p s) as Hhandle.
  { intros s. unfold handle_of; simpl. case_decide as Hs.
    - subst. by rewrite lookup_delete_eq.
    - by rewrite lookup_delete_ne. }
  unfold page_ok, handle_of in *; simpl in *.
  repeat apply conj.
  - intros url. destruct (slots p !! slot ≫= cleanup) as [u |] eqn:Hold; simpl.
    + rewrite is_Some_delete, Hlive. split.
      * intros [Hne (s & Hs)]. exists s.
        rewrite lookup_delete_ne; [done |]. intros <-. congruence.
      * intros (s & Hs). destruct (decide (s = slot)) as [-> | Hne].
        { by rewrite lookup_delete_eq in Hs. }
        rewrite lookup_delete_ne in Hs by done. split; [| eauto].
        intros ->. apply Hne. by apply (Hinj s slot u).
    + rewrite Hlive. split.
      * intros (s & Hs). exists s.
        rewrite lookup_delete_ne; [done |]. intros <-. congruence.
      * intros (s & Hs). destruct (decide (s = slot)) as [-> | Hne].
        { by rewrite lookup_delete_eq in Hs. }
        rewrite lookup_delete_ne in Hs by done. eauto.
  - intros s h' Hs. destruct (decide (s = slot)) as [-> | Hne].
    { by rewrite lookup_delete_eq in Hs. }
    rewrite lookup_delete_ne in Hs by done.
    destruct (Hslots s h' Hs) as [Hprev Hfile]. split; [done |].
    unfold file_of in *; simpl in *. rewrite lookup_delete_ne by done.
    destruct (slots p !! s ≫= deps) as [[f |] |]; try done.
    destruct Hfile as (url & Hurl & Hf). exists url. split; [done |].
    destruct (slots p !! slot ≫= cleanup) as [u |] eqn:Hold; simpl; [| done].
    rewrite lookup_delete_ne; [done |]. intros ->. apply Hne.
    apply (Hinj s slot url); [| done]. by rewrite Hs.
  - intros s1 s2 url H1 H2.
    destruct (decide (s1 = slot)) as [-> | Hne1].
    { by rewrite lookup_delete_eq in H1. }
    destruct (decide (s2 = slot)) as [-> | Hne2].
    { by rewrite lookup_delete_eq in H2. }
    rewrite lookup_delete_ne in H1, H2 by done. by apply (Hinj s1 s2 url).
  - intros url Hurl. apply Hbound.
    destruct (slots p !! slot ≫= cleanup) as [u |]; simpl in Hurl; [| done].
    by apply is_Some_delete in Hurl as [_ ?].
Qed.

Lemma mount_ok (p : Page) (slot : string) (file : option File) :
  page_ok p → slots p !! slot = None → page_ok (apply_op (Assign slot file) p).1.
Proof.
  intros (Hlive & Hslots & Hinj & Hbound) Hnone.
  rewrite apply_Assign_changed by (unfold changes; by rewrite Hnone).
  unfold page_ok, handle_of in *; simpl in *. rewrite Hnone. simpl.
  assert (∀ url, is_Some (live (browser p) !! url) → url ≠ next_url (browser p))
    as Hfresh.
  { intros url Hurl%Hbound. lia. }
  repeat apply conj.
  - intros url. destruct file as [f |]; simpl.
    + destruct (decide (url = next_url (browser p))) as [-> | Hne].
      * rewrite lookup_insert_eq. split; [| eauto].
        intros _. exists slot. by rewrite lookup_insert_eq.
      * rewrite lookup_insert_ne by done. rewrite Hlive. split.
        -- intros (s & Hs). exists s. rewrite lookup_insert_ne; [done |].
           intros <-. by rewrite Hnone in Hs.
        -- intros (s & Hs). destruct (decide (s = slot)) as [-> | Hs'].
           { rewrite lookup_insert_eq in Hs. simpl in Hs. congruence. }
           rewrite lookup_insert_ne in Hs by done. eauto.
    + rewrite Hlive. split.
      * intros (s & Hs). exists s. rewrite lookup_insert_ne; [done |].
        intros <-. by rewrite Hnone in Hs.
      * intros (s & Hs). destruct (decide (s = slot)) as [-> | Hs'].
        { by rewrite lookup_insert_eq in Hs. }
        rewrite lookup_insert_ne in Hs by done. eauto.
  - intros s h' Hs. unfold slot_ok, file_of; simpl.
    destruct (decide (s = slot)) as [-> | Hne].
    + rewrite lookup_insert_eq in Hs. injection Hs as <-.
      rewrite lookup_insert_eq. simpl. split; [done |].
      destruct file as [f |]; simpl; [| done].
      exists (next_url (browser p)). by rewrite lookup_insert_eq.
    + rewrite lookup_insert_ne in Hs by done. rewrite lookup_insert_ne by done.
      destruct (Hslots s h' Hs) as [Hprev Hfile]. split; [done |].
      unfold file_of in Hfile.
      destruct (slots p !! s ≫= deps) as [[f' |] |]; try done.
      destruct Hfile as (url & Hurl & Hf). exists url. split; [done |].
      destruct file as [f |]; simpl; [| done].
      rewrite lookup_insert_ne; [done |]. intros <-. by apply (Hfresh (next_url (browser p))).
  - intros s1 s2 url H1 H2.
    assert (∀ s, s ≠ slot →
                 <[slot:={| deps := Some file;
                            preview := const (next_url (browser p)) <$> file;
                            cleanup := const (next_url (browser p)) <$> file |}]>
                   (slots p) !! s ≫= cleanup = Some url →
                 slots p !! s ≫= cleanup = Some url ∧ url ≠ next_url (browser p))
      as Hother.
    { intros s Hs H. rewrite lookup_insert_ne in H by done. split; [done |].
      apply Hfresh, Hlive. eauto. }
    destruct (decide (s1 = slot)) as [-> | Hne1], (decide (s2 = slot)) as [-> | Hne2];
      try done.
    + rewrite lookup_insert_eq in H1. apply Hother in H2 as [_ H2]; [| done].
      destruct file; simpl in H1; [| done]. congruence.
    + rewrite lookup_insert_eq in H2. apply Hother in H1 as [_ H1]; [| done].
      destruct file; simpl in H2; [| done]. congruence.
    + apply Hother in H1 as [H1 _], H2 as [H2 _]; try done. by apply (Hinj s1 s2 url).
  - intros url. destruct file as [f |]; simpl; [| apply Hbound].
    destruct (decide (url = next_url (browser p))) as [-> | Hne]; [lia |].
    rewrite lookup_insert_ne by done. intros Hurl%Hbound. lia.
Qed.

Lemma assign_remount (p : Page) (slot : string) (file : option File) :
  changes p slot file →
  (apply_op (Assign slot file) p).1 =
  (apply_op (Assign slot file) (apply_op (Teardown slot) p).1).1.
Proof.
  intros Hch. destruct (slots p !! slot) as [h |] eqn:Hh.
  - rewrite apply_Teardown_spec by eauto.
    match goal with |- _ = (apply_op _ (?p1, _).1).1 => set (torn := p1) end.
    change ((apply_op (Assign slot file) p).1 = (apply_op (Assign slot file) torn).1).
    assert (changes torn slot file) as Hch'.
    { unfold changes, torn. simpl. by rewrite lookup_delete_eq. }
    rewrite !apply_Assign_changed by done.
    unfold handle_of, torn. simpl. rewrite lookup_delete_eq, insert_delete_eq. done.
  - simpl (apply_op (Teardown slot) p). by rewrite Hh.
Qed.

Lemma apply_op_ok (op : SlotOp) (p : Page) : page_ok p → page_ok (apply_op op p).1.
Proof.
  intros Hp. destruct op as [slot file | slot]; [| by apply teardown_ok].
  destruct (decide (changes p slot file)) as [Hch | Hsame].
  - rewrite assign_remount by done. apply mount_ok; [by apply teardown_ok |].
    destruct (slots p !! slot) as [h |] eqn:Hh.
    + rewrite apply_Teardown_spec by eauto. simpl. apply lookup_delete_eq.
    + simpl. by rewrite Hh.
  - by rewrite apply_Assign_same.
Qed.

Lemma apply_ops_ok (ops : list SlotOp) (p : Page) :
  page_ok p → page_ok (apply_ops ops p).1.
Proof.
  revert p. induction ops as [|op ops IH]; intros p Hp; simpl; [done |].
  destruct (apply_op op p) as [p1 out1] eqn:Hop.
  specialize (IH p1). destruct (apply_ops ops p1) as [p2 out2]. simpl in *.
  apply IH. change p1 with (p1, out1).1. rewrite <- Hop. by apply apply_op_ok.
Qed.

Lemma empty_page_ok : page_ok empty_page.
Proof.
  unfold page_ok, handle_of; simpl. repeat apply conj.
  - intros url. rewrite lookup_empty. split; [by intros [? ?] |].
    intros (s & Hs). by rewrite lookup_empty in Hs.
  - intros s h Hs. by rewrite lookup_empty in Hs.
  - intros s1 s2 url Hs. by rewrite lookup_empty in Hs.
  - intros url. rewrite lookup_empty. by intros [? ?].
Qed.

(** A slot's handle is untouched by what happens to another slot. *)
Lemma other_slot_kept (op : SlotOp) (p : Page) (slot other : string) :
  page_ok p →
  op = Teardown slot ∨ (∃ file, op = Assign slot file) →
  other ≠ slot →
  slots (apply_op op p).1 !! other = slots p !! other ∧
  ∀ url, handle_of p other = Some url →
         live (browser (apply_op op p).1) !! url = live (browser p) !! url.
Proof.
  intros (Hlive & Hslots & Hinj & Hbound) Hop Hne.
  assert (∀ url, handle_of p other = Some url →
                 from_option (fun u => delete u (live (browser p)))
                   (live (browser p)) (handle_of p slot) !! url
                 = live (browser p) !! url) as Hrelease.
  { intros url Hurl. destruct (handle_of p slot) as [u |] eqn:Hu; simpl; [| done].
    rewrite lookup_delete_ne; [done |]. intros ->. apply Hne. by apply (Hinj other slot url). }
  destruct Hop as [-> | [file ->]].
  - destruct (slots p !! slot) as [h |] eqn:Hh.
    + rewrite apply_Teardown_spec by eauto. simpl.
      by rewrite lookup_delete_ne.
    + simpl. by rewrite Hh.
  - destruct (decide (changes p slot file)) as [Hch | Hsame].
    + rewrite apply_Assign_changed by done. simpl.
      rewrite lookup_insert_ne by done. split; [done |].
      intros url Hurl. destruct file as [f |]; simpl; [| by apply Hrelease].
      rewrite lookup_insert_ne; [by apply Hrelease |].
      intros <-. assert (is_Some (live (browser p) !! next_url (browser p))) as Hl.
      { apply Hlive. eauto. }
      apply Hbound in Hl. lia.
    + by rewrite apply_Assign_same.
Qed.

(** C8. After any sequence of assignments and teardowns on any slots no
    handle is leaked or dangling ([page_ok]). From such a page, assigning
    a file to a slot whose file changes calls the URL registry exactly to
    revoke the handle the slot held (if it held one) and then to create
    the new one (if the file is not null), after which the old handle is
    dead; assigning the file the slot already has calls nothing; a null
    file leaves the slot without handle or preview, a non-null file gives
    it a live handle that resolves to the file; tearing a slot down
    revokes exactly its handle; and none of this touches the hook or the
    handle of another slot. With no slot mounted nothing is live. *)
Theorem C8_preview_handles (ops : list SlotOp) :
  let p := (apply_ops ops empty_page).1 in
  page_ok p ∧
  (∀ slot file,
     let r := apply_op (Assign slot file) p in
     (changes p slot file →
      r.2 = revokes (handle_of p slot) ++ creates (handle_of r.1 slot) ∧
      ∀ url, handle_of p slot = Some url → live (browser r.1) !! url = None) ∧
     (¬ changes p slot file → r = (p, [])) ∧
     (∃ h, slots r.1 !! slot = Some h ∧ preview h = handle_of r.1 slot ∧
           match file with
           | Some f => ∃ url, preview h = Some url ∧
                              live (browser r.1) !! url = Some f
           | None => preview h = None
           end) ∧
     (∀ other, other ≠ slot →
        slots r.1 !! other = slots p !! other ∧
        ∀ url, handle_of p other = Some url →
               live (browser r.1) !! url = live (browser p) !! url)) ∧
  (∀ slot,
     let r := apply_op (Teardown slot) p in
     r.2 = revokes (handle_of p slot) ∧
     slots r.1 !! slot = None ∧
     (∀ url, handle_of p slot = Some url → live (browser r.1) !! url = None) ∧
     (∀ other, other ≠ slot →
        slots r.1 !! other = slots p !! other ∧
        ∀ url, handle_of p other = Some url →
               live (browser r.1) !! url = live (browser p) !! url)) ∧
  (slots p = ∅ → live (browser p) = ∅).
Proof.
  intros p. assert (page_ok p) as Hp by apply apply_ops_ok, empty_page_ok.
  split; [done |]. repeat apply conj.
  - intros slot file r. repeat apply conj.
    + intros Hch. subst r. rewrite apply_Assign_changed by done. simpl.
      unfold handle_of at 3. simpl. rewrite lookup_insert_eq. simpl.
      split; [done |]. intros url Hurl. rewrite Hurl. simpl.
      destruct file as [f |]; simpl; [| apply lookup_delete_eq].
      rewrite lookup_insert_ne; [apply lookup_delete_eq |].
      destruct Hp as (Hlive & _ & _ & Hbound).
      intros <-. assert (is_Some (live (browser p) !! next_url (browser p))) as Hl.
      { apply Hlive. eauto. }
      apply Hbound in Hl. lia.
    + intros Hsame. subst r. by apply apply_Assign_same.
    + pose proof (apply_op_ok (Assign slot file) p Hp) as (_ & Hslots & _).
      fold r in Hslots.
      assert (∃ h, slots r.1 !! slot = Some h ∧ deps h = Some file) as (h & Hh & Hd).
      { subst r. destruct (decide (changes p slot file)) as [Hch | Hsame].
        - rewrite apply_Assign_changed by done. simpl. rewrite lookup_insert_eq. eauto.
        - rewrite apply_Assign_same by done. simpl.
          unfold changes in Hsame. apply dec_stable in Hsame.
          destruct (slots p !! slot) as [h |]; simpl in Hsame; [eauto | done]. }
      exists h. split; [done |].
      destruct (Hslots slot h Hh) as [Hprev Hfile].
      unfold file_of, handle_of in *. rewrite Hh in *. simpl in *. rewrite Hd in Hfile.
      split; [done |]. rewrite Hprev. done.
    + intros other Hne.
      apply (other_slot_kept (Assign slot file) p slot other); eauto.
  - intros slot r. subst r.
    assert (apply_op (Teardown slot) p = (p, []) ∧ slots p !! slot = None ∨
            is_Some (slots p !! slot)) as [[Hnop Hh] | Hh].
    { destruct (slots p !! slot) as [h |] eqn:Hh; [eauto |].
      left. simpl. by rewrite Hh. }
    + rewrite Hnop. unfold handle_of. rewrite Hh. done.
    + repeat apply conj.
      * by rewrite apply_Teardown_spec.
      * rewrite apply_Teardown_spec by done. apply lookup_delete_eq.
      * intros url Hurl. rewrite apply_Teardown_spec by done. simpl.
        rewrite Hurl. apply lookup_delete_eq.
      * intros other Hne.
        apply (other_slot_kept (Teardown slot) p slot other); eauto.
  - intros Hempty. destruct Hp as (Hlive & _). apply map_empty. intros url.
    apply eq_None_not_Some. intros (s & Hs)%Hlive.
    unfold handle_of in Hs. by rewrite Hempty, lookup_empty in Hs.
Qed.
End Preview.

(** * More properties of the page *)

Lemma or_opt_nonempty (a : option string) (b : string) : b ≠ "" → or_opt a b ≠ "".
Proof. intros Hb. unfold or_opt, or_str. repeat case_match; done. Qed.

Lemma step_Inv2 (e : Event) (st st' : State) (out : list Effect) :
  Inv st → Inv2 st → step e st = Some (st', out) → Inv2 st'.
Proof.
  destruct st as [n ld er su gv vg ge ss fn sv fk sb].
  unfold Inv, Inv2; simpl.
  intros (Hn & Hvg & Hld & Hss) (Hgv & Hcc & Hv1 & Hsu) Hstep.
  assert (∀ b : bool, negb (ss && bool_decide (is_Some sv)) && b = true → ss = true → False) as Hshown.
  { intros b Hb ->. destruct Hss as [v ->]; [done |].
    by rewrite bool_decide_eq_true_2 in Hb by eauto. }
  destruct e; simpl in Hstep;
    unfold on_step, form_shown, handleNext_start, handleNext_resolved,
      handleNext_rejected, handleSubmit, onSubmit_start, onSubmit_rejected,
      onSubmit_resolved, resumed in Hstep;
    simpl in Hstep.
  - (* TypeNumber *)
    step_cases; subst; simpl. repeat apply conj; try done; lia.
  - step_cases; subst; simpl. repeat apply conj; try done; lia.
  - step_cases; subst; simpl. repeat apply conj; try done; lia.
  - (* TypeMomoNumber *)
    step_cases; subst; simpl. repeat apply conj; try done; lia.
  - (* PickSelfie *)
    step_cases; subst; simpl. repeat apply conj; try done.
  - (* ClickContinue *)
    step_cases. subst ld vg.
    destruct (decide (validate n (values fk) = ∅)) as [He | He].
    + destruct (bool_decide (n = 0) && negb gv) eqn:Hgate;
        step_cases; subst; simpl.
      * repeat apply conj; try done; lia.
      * assert (n = 0 ∨ n = 1) as [-> | ->] by (simpl in *; lia).
        -- simpl in Hgate. destruct gv; [| done].
           repeat apply conj; try done; lia.
        -- repeat apply conj; try done. intros _. apply Hgv. lia.
    + step_cases; subst; simpl. done.
  - (* ClickBack *)
    step_cases; subst; simpl. repeat apply conj; try done.
    + intros Hge. apply Hgv. lia.
    + intros Hge. apply Hv1. lia.
  - (* ClickSubmit *)
    apply guard_Some in Hstep as [Hg Hstep].
    apply andb_true_iff in Hg as [Hg _]. pose proof (Hshown _ Hg) as Hno.
    destruct (decide (validate n (values fk) = ∅)) as [He | He];
      step_cases; subst; simpl; [| done].
    repeat apply conj; try done; intros Hss'; by destruct (Hno Hss').
  - (* PressEnter *)
    apply guard_Some in Hstep as [Hg Hstep]. pose proof (Hshown _ Hg) as Hno.
    destruct (decide (validate n (values fk) = ∅)) as [He | He];
      step_cases; subst; simpl; [| done].
    repeat apply conj; try done; intros Hss'; by destruct (Hno Hss').
  - (* VerifyResolved *)
    step_cases. subst vg. destruct Hvg as (-> & -> & ->); [done |].
    destruct (from_option Verify.verified false (data res));
      step_cases; subst; simpl; repeat apply conj; try done; lia.
  - (* VerifyRejected *)
    step_cases. subst vg. destruct Hvg as (-> & -> & ->); [done |].
    subst; simpl. repeat apply conj; try done; lia.
  - (* SubmitResolved *)
    destruct (sb !! i) as [values |]; simpl in Hstep; [| done].
    destruct (data res); simpl in Hstep; injection Hstep as <- <-; simpl.
    + repeat apply conj; try done. intros _. by apply or_opt_nonempty.
    + repeat apply conj; try done.
  - (* SubmitRejected *)
    step_cases; subst; simpl. repeat apply conj; try done.
Qed.

Lemma initialState_Inv2 : Inv2 initialState.
Proof. unfold Inv2; simpl. repeat apply conj; try done; lia. Qed.

(** Runs keep an invariant that steps keep, and emit only effects that
    steps from states under it emit. *)
Lemma run_invariant (J : State → Prop) (P : Effect → Prop) :
  (∀ e st st' out, J st → step e st = Some (st', out) → J st' ∧ Forall P out) →
  ∀ es st st' out, J st → run es st = Some (st', out) → J st' ∧ Forall P out.
Proof.
  intros Hstep es. induction es as [|e es IH]; intros st st' out HJ Hrun;
    simpl in Hrun.
  - injection Hrun as <- <-. done.
  - destruct (step e st) as [[st1 out1] |] eqn:He; simpl in Hrun; [| done].
    destruct (run es st1) as [[st2 out2] |] eqn:Hes; simpl in Hrun; [| done].
    injection Hrun as <- <-.
    destruct (Hstep _ _ _ _ HJ He) as [HJ1 HP1].
    destruct (IH _ _ _ HJ1 Hes) as [HJ2 HP2].
    split; [done | by apply Forall_app].
Qed.

Lemma reachable_Inv2 (st : State) : reachable st → Inv2 st.
Proof.
  intros (es & out & Hrun).
  destruct (run_invariant (fun st => Inv st ∧ Inv2 st) (fun _ => True)) with
    (es := es) (st := initialState) (st' := st) (out := out) as [[_ H] _]; try done;
    try (split; [apply initialState_Inv | apply initialState_Inv2]).
  intros e st0 st1 out1 [HI HI2] Hstep. split; [| by apply Forall_true].
  split; [by eapply step_Inv | by eapply step_Inv2].
Qed.

(** ** Calls in flight *)

(** X1. In every reachable state the step is 0, 1 or 2. While the
    verification call is in flight the page is on step 0 and none of
    Continue, Back and the submit button is offered. While [loading] is
    on, a submission is suspended and, again, none of Continue, Back and
    the submit button is offered. (Enter in the card-number input is
    held back by neither.) *)
Theorem X1_navigation_off_while_pending (st : State) :
  reachable st →
  0 ≤ currentStep st ≤ 2 ∧
  (verifyingGhanaCard st = true →
   currentStep st = 0 ∧
   step ClickContinue st = None ∧ step ClickBack st = None ∧
   step ClickSubmit st = None) ∧
  (loading st = true →
   submitting st ≠ [] ∧
   step ClickContinue st = None ∧ step ClickBack st = None ∧
   step ClickSubmit st = None).
Proof.
  intros (Hn & Hvg & Hld & Hss)%reachable_Inv.
  destruct st as [n ld er su gv vg ge ss fn sv fk sb]; simpl in *.
  split; [lia |]. split.
  - intros ->. destruct Hvg as (-> & _ & _); [done |].
    unfold form_shown; simpl. by rewrite !andb_false_r, orb_true_r, !andb_false_r.
  - intros ->. unfold form_shown; simpl. rewrite !andb_false_r. auto.
Qed.

Lemma X1_navigation_off_while_pending_witness :
  0 ≤ currentStep (state_after (fill_step0 ++ [ClickContinue])) ≤ 2.
Proof.
  apply (X1_navigation_off_while_pending (state_after (fill_step0 ++ [ClickContinue]))).
  apply state_after_reachable. vm_compute. eauto.
Defined.

(** ** The steps behind the gate *)

Lemma step_verified_origin (e : Event) (st st' : State) (out : list Effect) :
  step e st = Some (st', out) → ghanaCardVerified st' = true →
  ghanaCardVerified st = true ∨ says_verified e.
Proof.
  destruct st as [n ld er su gv vg ge ss fn sv fk sb]. intros Hstep.
  destruct e; simpl in Hstep;
    unfold on_step, form_shown, handleNext_start, handleNext_resolved,
      handleNext_rejected, handleSubmit, onSubmit_start, onSubmit_rejected,
      onSubmit_resolved, resumed in Hstep;
    simpl in Hstep.
  1-5: (step_cases; subst; simpl; try done; auto).
  - step_cases. repeat case_match; step_cases; subst; simpl; try done; auto.
  - step_cases; subst; simpl; try done; auto.
  - step_cases. repeat case_match; step_cases; subst; simpl; try done; auto.
  - step_cases. repeat case_match; step_cases; subst; simpl; try done; auto.
  - step_cases.
    destruct (from_option Verify.verified false (data res)) eqn:Hres;
      step_cases; subst; simpl; try done; auto.
    intros _. right. by exists res.
  - step_cases; subst; simpl; try done; auto.
  - destruct (sb !! i); simpl in Hstep; [| done].
    destruct (data res); simpl in Hstep; injection Hstep as <- <-; simpl; try done; auto.
  - step_cases; subst; simpl; try done; auto.
Qed.

Lemma run_verified_origin (es : list Event) (st st' : State) (out : list Effect) :
  run es st = Some (st', out) → ghanaCardVerified st' = true →
  ghanaCardVerified st = true ∨ Exists says_verified es.
Proof.
  revert st out. induction es as [|e es IH]; intros st out Hrun Hgv; simpl in Hrun.
  - injection Hrun as <- <-. auto.
  - destruct (step e st) as [[st1 out1] |] eqn:He; simpl in Hrun; [| done].
    destruct (run es st1) as [[st2 out2] |] eqn:Hes; simpl in Hrun; [| done].
    injection Hrun as <- <-.
    destruct (IH _ _ Hes Hgv) as [Hgv1 | Hex]; [| right; by apply Exists_cons_tl].
    destruct (step_verified_origin _ _ _ _ He Hgv1) as [? | ?]; [by left |].
    right. by apply Exists_cons_hd.
Qed.

(** X2. Along every run from the initial page: a state past step 0 has
    the card recorded as verified, and whenever the card is recorded as
    verified some verification call was answered with [verified] before.
    So the steps after the first are only ever shown after such an
    answer. *)
Theorem X2_later_steps_need_verified (es : list Event) (st : State)
    (out : list Effect) :
  run es initialState = Some (st, out) →
  (1 ≤ currentStep st → ghanaCardVerified st = true) ∧
  (ghanaCardVerified st = true → Exists says_verified es) ∧
  (1 ≤ currentStep st → Exists says_verified es).
Proof.
  intros Hrun.
  assert (reachable st) as (Hgv & _)%reachable_Inv2 by (by exists es, out).
  assert (ghanaCardVerified st = true → Exists says_verified es) as Hex.
  { intros Hv. by destruct (run_verified_origin _ _ _ _ Hrun Hv). }
  auto.
Qed.

Lemma X2_later_steps_need_verified_witness :
  Exists says_verified submit_trace.
Proof.
  assert (run submit_trace initialState
          = Some (state_after submit_trace,
                  from_option snd [] (run submit_trace initialState))) as Hrun
    by (vm_compute; reflexivity).
  apply (proj2 (proj2 (X2_later_steps_need_verified submit_trace _ _ Hrun))).
  vm_compute. discriminate.
Defined.

(** ** What the calls carry *)

Lemma step_posts_valid_number (e : Event) (st st' : State) (out : list Effect)
    (n : string) :
  step e st = Some (st', out) → PostVerifyGhanaCard n ∈ out →
  n = number (values (formik st)) ∧ spec_rules 0 (values (formik st)).
Proof.
  destruct st as [k ld er su gv vg ge ss fn sv fk sb]. intros Hstep Hin.
  destruct e; simpl in Hstep;
    unfold on_step, form_shown, handleNext_start, handleNext_resolved,
      handleNext_rejected, handleSubmit, onSubmit_start, onSubmit_rejected,
      onSubmit_resolved, resumed in Hstep;
    simpl in Hstep.
  1-5: (step_cases; subst; by apply elem_of_nil in Hin).
  - step_cases.
    destruct (decide (validate k (values fk) = ∅)) as [He | He];
      [| step_cases; subst; by apply elem_of_nil in Hin].
    destruct (bool_decide (k = 0) && negb gv) eqn:Hgate; step_cases; subst;
      [| by apply elem_of_nil in Hin].
    apply list_elem_of_singleton in Hin as [= ->]. simpl.
    split; [done |]. apply (validate_empty 0); [lia | done].
  - step_cases; subst. by apply elem_of_nil in Hin.
  - step_cases. repeat case_match; step_cases; subst;
      try (by apply elem_of_nil in Hin);
      by apply list_elem_of_singleton in Hin.
  - step_cases. repeat case_match; step_cases; subst;
      try (by apply elem_of_nil in Hin);
      by apply list_elem_of_singleton in Hin.
  - step_cases. repeat case_match; step_cases; subst;
      try (by apply elem_of_nil in Hin);
      by apply list_elem_of_singleton in Hin.
  - step_cases; subst. by apply list_elem_of_singleton in Hin.
  - destruct (sb !! i); simpl in Hstep; [| done].
    destruct (data res); simpl in Hstep; injection Hstep as <- <-;
      by apply list_elem_of_singleton in Hin.
  - step_cases; subst. by apply list_elem_of_singleton in Hin.
Qed.

(** X3. Every verification call issued along a run from the initial page
    carries a card number of the form GHA-, nine digits, dash, digit:
    a malformed number never reaches the remote check. *)
Theorem X3_verify_call_well_formed (es : list Event) (st : State)
    (out : list Effect) (n : string) :
  run es initialState = Some (st, out) → PostVerifyGhanaCard n ∈ out →
  spec_ghana_card_format n.
Proof.
  intros Hrun Hin.
  destruct (run_invariant (fun _ => True)
              (fun eff => ∀ n, eff = PostVerifyGhanaCard n → spec_ghana_card_format n))
    with (es := es) (st := initialState) (st' := st) (out := out) as [_ Hall];
    try done.
  - intros e st0 st1 out1 _ Hstep. split; [done |].
    apply Forall_forall. intros eff Heff m ->.
    by destruct (step_posts_valid_number _ _ _ _ _ Hstep Heff) as [-> [? _]].
  - rewrite Forall_forall in Hall. by apply (Hall _ Hin).
Qed.

Lemma X3_verify_call_well_formed_witness :
  spec_ghana_card_format "GHA-123456789-1".
Proof.
  eapply (X3_verify_call_well_formed (fill_step0 ++ [ClickContinue])).
  - vm_compute. reflexivity.
  - apply list_elem_of_here.
Defined.

Lemma build_formData_parts (v : KycFormValues) :
  build_formData v !! 0%nat = Some ("number", Text (number v)) ∧
  ("momo_country_code", Text (Momo.country_code (momo v))) ∈ build_formData v ∧
  ("momo_number", Text (Momo.number (momo v))) ∈ build_formData v ∧
  (∀ f, ghanaCardFront v = Some f → ("ghanaCardFront", Binary f) ∈ build_formData v) ∧
  (∀ f, ghanaCardBack v = Some f → ("ghanaCardBack", Binary f) ∈ build_formData v) ∧
  (∀ f, selfie v = Some f → ("selfie", Binary f) ∈ build_formData v).
Proof.
  destruct v as [n [f |] [b |] [cc m] [s |]]; unfold build_formData; simpl;
    repeat apply conj; try done; try (intros ? [= <-]);
    repeat first [ apply list_elem_of_here | apply list_elem_of_further ].
Qed.

(** X4. A submission call issued from a reachable state carries the
    payload of the current values, with the card number as its first
    part and the country code "+233", and it is issued in one of two
    ways. By the submit button on step 2: then it has a mobile-money
    number of six to fifteen digits and a selfie part - also on runs
    where the step-0 fields were edited during the verification. By
    Enter in the card-number input on step 0: then it has a well-formed
    card number and both card images. *)
Theorem X4_submission_payload (e : Event) (st st' : State)
    (out : list Effect) (fd : FormData) :
  reachable st → step e st = Some (st', out) → PostCompleteKyc fd ∈ out →
  fd = build_formData (values (formik st)) ∧
  fd !! 0%nat = Some ("number", Text (number (values (formik st)))) ∧
  ("momo_country_code", Text "+233") ∈ fd ∧
  (e = ClickSubmit ∧ currentStep st = 2 ∧
   (∃ m, ("momo_number", Text m) ∈ fd ∧ spec_momo_number_format m) ∧
   (∃ f, ("selfie", Binary f) ∈ fd)
   ∨
   e = PressEnter ∧ currentStep st = 0 ∧
   spec_ghana_card_format (number (values (formik st))) ∧
   (∃ f, ("ghanaCardFront", Binary f) ∈ fd) ∧
   (∃ f, ("ghanaCardBack", Binary f) ∈ fd)).
Proof.
  intros Hreach Hstep Hin.
  pose proof (reachable_Inv2 st Hreach) as (_ & Hcc & Hv1 & _).
  destruct (build_formData_parts (values (formik st)))
    as (H0 & Hcode & Hmomo & Hfront & Hback & Hselfie).
  rewrite Hcc in Hcode.
  destruct (step_submit_payload _ _ _ _ _ Hstep Hin)
    as [-> [(-> & Hn & He) | (-> & Hn & He)]]; repeat apply conj; try done.
  - left. apply (validate_empty 2) in He as [f Hf]; [| lia].
    assert (validate 1 (values (formik st)) = ∅) as [_ Hm]%(validate_empty 1)
      by (apply Hv1; lia); [| lia].
    repeat apply conj; eauto.
  - right. apply (validate_empty 0) in He as (Hfmt & [f Hf] & [b Hb]); [| lia].
    repeat apply conj; eauto.
Qed.

Lemma X4_submission_payload_witness :
  ("momo_country_code", Text "+233") ∈
    build_formData (values (formik (state_after (removelast submit_trace)))).
Proof.
  eapply (X4_submission_payload ClickSubmit (state_after (removelast submit_trace))).
  - apply state_after_reachable. vm_compute. eauto.
  - vm_compute. reflexivity.
  - apply list_elem_of_here.
Defined.

Lemma X5_quiet_submission_validated_witness :
  [("number", Text "GHA-123456789-1");
   ("ghanaCardFront", Binary (Blob 1));
   ("ghanaCardBack", Binary (Blob 2));
   ("momo_country_code", Text "+233");
   ("momo_number", Text "244000000");
   ("selfie", Binary (Blob 3))] =
  build_formData (values (formik (state_after (removelast submit_trace)))).
Proof.
  eapply (X5_quiet_submission_validated (removelast submit_trace) ClickSubmit
            (state_after (removelast submit_trace))).
  - vm_compute. reflexivity.
  - vm_compute. reflexivity.
  - apply list_elem_of_here.
Defined.

(** ** Validation errors on screen *)

Lemma yupToFormErrors_lookup (inner : list (string * string)) (path msg : string) :
  yupToFormErrors inner !! path = Some msg → (path, msg) ∈ inner.
Proof.
  unfold yupToFormErrors.
  assert (∀ acc : FormikErrors,
            fold_left
              (fun errors e =>
                 match errors !! e.1 with
                 | Some _ => errors
                 | None => <[e.1 := e.2]> errors
                 end) inner acc !! path = Some msg →
            acc !! path = Some msg ∨ (path, msg) ∈ inner) as H.
  { induction inner as [|[p m] inner IH]; intros acc; simpl; [auto |].
    intros [Hacc | Hin]%IH; [| right; by apply list_elem_of_further].
    destruct (acc !! p) eqn:Hp; simpl in Hacc; [auto |].
    destruct (decide (p = path)) as [-> | Hne].
    - rewrite lookup_insert_eq in Hacc. injection Hacc as ->.
      right. apply list_elem_of_here.
    - rewrite lookup_insert_ne in Hacc by done. auto. }
  intros [Hempty | Hin]%H; [by rewrite lookup_empty in Hempty | done].
Qed.

Lemma field_messages {A : Type} (path : string) (v : A) (tests : list (test A))
    (e : string * string) (P : string → Prop) :
  (∀ t m, t ∈ tests → t v = Some m → P m) → e ∈ field path v tests → P e.2.
Proof.
  unfold field. intros HP (t & Ht & He)%list_elem_of_omap.
  destruct (t v) as [m |] eqn:Htv; simpl in He; [| done].
  injection He as <-. by eapply HP.
Qed.

Lemma validationSchema_messages (s : Z) (v : KycFormValues) (e : string * string) :
  e ∈ validationSchema s v → e.2 ≠ "".
Proof.
  assert (∀ (A : Type) (msg : string) (x : option A) m,
            msg ≠ "" → required msg x = Some m → m ≠ "") as Hreq.
  { intros A msg [a |] m Hmsg; simpl; congruence. }
  assert (∀ re (msg : string) x m,
            msg ≠ "" → matches re msg x = Some m → m ≠ "") as Hmat.
  { intros re msg [a |] m Hmsg; simpl; [| done]. case_match; congruence. }
  assert (∀ (A : Type) path (x : A) tests,
            (∀ t m, t ∈ tests → t x = Some m → m ≠ "") →
            e ∈ field path x tests → e.2 ≠ "") as Hfield.
  { intros A path x tests Ht Hin.
    by apply (field_messages path x tests e (fun m => m ≠ "")). }
  assert (∀ (A : Type) (x : A) (t1 : test A),
            (∀ m, t1 x = Some m → m ≠ "") →
            ∀ t m, t ∈ [t1] → t x = Some m → m ≠ "") as H1.
  { intros A x t1 Ht1 t m ->%list_elem_of_singleton. apply Ht1. }
  assert (∀ (A : Type) (x : A) (t1 t2 : test A),
            (∀ m, t1 x = Some m → m ≠ "") → (∀ m, t2 x = Some m → m ≠ "") →
            ∀ t m, t ∈ [t1; t2] → t x = Some m → m ≠ "") as H2.
  { intros A x t1 t2 Ht1 Ht2 t m [-> | ->%list_elem_of_singleton]%elem_of_cons;
      [apply Ht1 | apply Ht2]. }
  unfold validationSchema.
  destruct s as [|[[]|[]|]|]; try (by intros ?%elem_of_nil).
  - intros [Hin | [Hin | Hin]%elem_of_app]%elem_of_app;
      (eapply Hfield; [| exact Hin]).
    + apply H2; intros m; [by apply Hreq | by apply Hmat].
    + apply H1; intros m; by apply Hreq.
    + apply H1; intros m; by apply Hreq.
  - intros Hin. eapply Hfield; [| exact Hin]. apply H1; intros m; by apply Hreq.
  - intros [Hin | Hin]%elem_of_app; (eapply Hfield; [| exact Hin]).
    + apply H1; intros m; by apply Hreq.
    + apply H2; intros m; [by apply Hmat | by apply Hreq].
Qed.

Lemma validate_messages (s : Z) (v : KycFormValues) (path msg : string) :
  validate s v !! path = Some msg → msg ≠ "".
Proof.
  intros Hin%yupToFormErrors_lookup. by apply validationSchema_messages in Hin.
Qed.

(** With a country code, the errors of step 1 are on the number. *)
Lemma validate_error_lines (s : Z) (v : KycFormValues) :
  Momo.country_code (momo v) ≠ "" → dom (validate s v) ⊆ error_lines s.
Proof.
  intros Hcc. destruct (decide (s = 1)) as [-> | Hs].
  - unfold validate. rewrite yupToFormErrors_dom. intros path Hpath.
    apply elem_of_list_to_set, list_elem_of_fmap in Hpath as (e & -> & He).
    unfold validationSchema in He.
    replace (field "momo.country_code" (prepare (Momo.country_code (momo v)))
               [required "Country code is required"]) with (@nil (string * string))
      in He.
    + apply field_path in He. rewrite He. set_solver.
    + symmetry. by apply required_string_field_nil.
  - pose proof (validate_dom s v) as Hdom.
    unfold step_fields, error_lines in *.
    destruct s as [|[[]|[]|]|]; try done.
Qed.

Lemma touch_step_covers (s : Z) (t : Touched) (path : string) :
  path ∈ step_fields s → touched_at (touch_step s t) path = true.
Proof.
  unfold step_fields, touch_step, touched_at.
  destruct s as [|[[]|[]|]|]; try (by intros ?%elem_of_empty);
    intros Hin; repeat (apply elem_of_union in Hin as [Hin | Hin]);
    apply elem_of_singleton in Hin as ->; reflexivity.
Qed.

(** X6. When the current step does not validate, [next] issues no call
    and changes neither the step, the field values nor the verification
    state; it stores the errors and touches the fields of the step, so
    that in a reachable state every error found is rendered under its
    input. *)
Theorem X6_next_with_errors (st : State) :
  reachable st →
  validate (currentStep st) (values (formik st)) ≠ ∅ →
  let r := handleNext_start st in
  r.2 = [] ∧
  currentStep r.1 = currentStep st ∧
  values (formik r.1) = values (formik st) ∧
  verificationState r.1 = verificationState st ∧
  errors (formik r.1) = validate (currentStep st) (values (formik st)) ∧
  visible_errors r.1 = validate (currentStep st) (values (formik st)).
Proof.
  intros Hreach He r.
  pose proof (reachable_Inv2 st Hreach) as (_ & Hcc & _).
  destruct st as [n ld er su gv vg ge ss fn sv fk sb]; simpl in *.
  subst r. unfold handleNext_start; simpl. rewrite decide_False by done. simpl.
  unfold verificationState, visible_errors; simpl.
  repeat apply conj; try done.
  apply map_filter_id. intros path msg Hpm. simpl. repeat apply conj.
  - apply (validate_error_lines n (values fk)); [by rewrite Hcc |].
    apply elem_of_dom. eauto.
  - apply touch_step_covers. apply (validate_dom n (values fk)).
    apply elem_of_dom. eauto.
  - by eapply validate_messages.
Qed.

Lemma X6_next_with_errors_witness :
  (handleNext_start initialState).2 = [].
Proof.
  assert (reachable initialState) as Hreach by (by exists [], []).
  assert (validate (currentStep initialState) (values (formik initialState)) ≠ ∅)
    as Herr by (vm_compute; discriminate).
  exact (proj1 (X6_next_with_errors initialState Hreach Herr)).
Defined.

(** X7. When the last step does not validate (no selfie), the submit
    button issues no call and does not start loading; the error is
    stored and rendered under the selfie input. *)
Theorem X7_submit_with_errors (st : State) :
  currentStep st = 2 →
  selfie (values (formik st)) = None →
  let r := handleSubmit st in
  r.2 = [] ∧
  loading r.1 = loading st ∧
  submitting r.1 = submitting st ∧
  currentStep r.1 = 2 ∧
  values (formik r.1) = values (formik st) ∧
  visible_errors r.1 = {["selfie" := "Selfie is required"]}.
Proof.
  intros Hn Hselfie r.
  destruct st as [n ld er su gv vg ge ss fn sv fk sb]; simpl in *. subst n.
  assert (validate 2 (values fk) = {["selfie" := "Selfie is required"]}) as Hv.
  { unfold validate, validationSchema. rewrite Hselfie. reflexivity. }
  subst r. unfold handleSubmit; simpl. rewrite Hv.
  rewrite decide_False by (by apply insert_non_empty). simpl.
  unfold visible_errors; simpl. repeat apply conj; done.
Qed.

Lemma X7_submit_with_errors_witness :
  (handleSubmit
     (state_after (fill_step0 ++
                   [ClickContinue; VerifyResolved verified_ok;
                    TypeMomoNumber "244000000"; ClickContinue]))).2 = [].
Proof.
  apply (X7_submit_with_errors
           (state_after (fill_step0 ++
                         [ClickContinue; VerifyResolved verified_ok;
                          TypeMomoNumber "244000000"; ClickContinue]))).
  - vm_compute. reflexivity.
  - vm_compute. reflexivity.
Defined.

(** ** After the submission *)

(** X8. Once the success screen is shown (in a reachable state) the
    form is gone: no control is rendered, so no event of the user is
    offered any more; there is a snapshot behind the summary and the
    success text is not empty. *)
Theorem X8_success_screen (st : State) :
  reachable st → showSuccessScreen st = true →
  form_shown st = false ∧
  (∀ e, is_user_event e = true → step e st = None) ∧
  is_Some (submittedValues st) ∧
  success st ≠ "".
Proof.
  intros Hreach Hss.
  pose proof (reachable_Inv st Hreach) as (Hn & Hvg & Hld & Hshow).
  pose proof (reachable_Inv2 st Hreach) as (_ & _ & _ & Hsu).
  destruct st as [n ld er su gv vg ge ss fn sv fk sb]; simpl in *. subst ss.
  destruct Hshow as [v ->]; [done |].
  repeat apply conj; eauto.
  intros [] He; try discriminate He; reflexivity.
Qed.

Lemma X8_success_screen_witness :
  success
    (state_after
       (submit_trace ++ [SubmitResolved 0 (mkResponse (Some (Kyc.mk None None)))]))
  ≠ "".
Proof.
  apply (X8_success_screen
           (state_after
              (submit_trace ++ [SubmitResolved 0 (mkResponse (Some (Kyc.mk None None)))]))).
  - apply state_after_reachable. vm_compute. eauto.
  - vm_compute. reflexivity.
Defined.

(** X9. The multipart payload determines the values it was built from:
    two values records with the same payload are the same. *)
Theorem X9_formData_injective (v1 v2 : KycFormValues) :
  build_formData v1 = build_formData v2 → v1 = v2.
Proof.
  destruct v1 as [n1 f1 b1 [c1 m1] s1], v2 as [n2 f2 b2 [c2 m2] s2].
  unfold build_formData.
  destruct f1, b1, s1, f2, b2, s2; simpl; intros H; by simplify_eq.
Qed.

Lemma X9_formData_injective_witness : initialValues = initialValues.
Proof. apply (X9_formData_injective initialValues initialValues). reflexivity. Defined.

Lemma run_snapshot_sent (es : list Event) (st st' : State) (out : list Effect)
    (P : KycFormValues → Prop) :
  (∀ v, v ∈ submitting st ∨ submittedValues st = Some v → P v) →
  run es st = Some (st', out) →
  ∀ v, v ∈ submitting st' ∨ submittedValues st' = Some v →
       P v ∨ PostCompleteKyc (build_formData v) ∈ out.
Proof.
  revert st out P. induction es as [|e es IH]; intros st out P HP Hrun;
    simpl in Hrun.
  - injection Hrun as <- <-. auto.
  - destruct (step e st) as [[st1 out1] |] eqn:He; simpl in Hrun; [| done].
    destruct (run es st1) as [[st2 out2] |] eqn:Hes; simpl in Hrun; [| done].
    injection Hrun as <- <-. intros v Hv.
    destruct (IH st1 out2
                (fun v => P v ∨ PostCompleteKyc (build_formData v) ∈ out1))
      with (v := v) as [[HPv | Hin] | Hin]; try done; auto.
    + clear Hv v. intros v Hv.
      destruct st as [n ld er su gv vg ge ss fn sv fk sb].
      destruct e; simpl in He;
        unfold on_step, form_shown, handleNext_start, handleNext_resolved,
          handleNext_rejected, handleSubmit, onSubmit_start, onSubmit_rejected,
          onSubmit_resolved, resumed in He;
        simpl in He.
      1-5: (step_cases; subst; simpl in *; left; by apply HP).
      * step_cases. repeat case_match; step_cases; subst; simpl in *;
          left; by apply HP.
      * step_cases; subst; simpl in *. left; by apply HP.
      * step_cases. destruct (decide (_ = ∅)); step_cases; subst; simpl in *.
        -- destruct Hv as [[Hv | ->%list_elem_of_singleton]%elem_of_app | Hv];
             [| right; apply list_elem_of_here |]; left; apply HP; auto.
        -- left. by apply HP.
      * step_cases. destruct (decide (_ = ∅)); step_cases; subst; simpl in *.
        -- destruct Hv as [[Hv | ->%list_elem_of_singleton]%elem_of_app | Hv];
             [| right; apply list_elem_of_here |]; left; apply HP; auto.
        -- left. by apply HP.
      * step_cases. repeat case_match; step_cases; subst; simpl in *;
          left; by apply HP.
      * step_cases; subst; simpl in *. left; by apply HP.
      * destruct (sb !! i) as [values |] eqn:Hi; simpl in He; [| done].
        apply list_elem_of_lookup_2 in Hi.
        destruct (data res); simpl in He; injection He as <- <-; simpl in *.
        -- destruct Hv as [Hv%list_elem_of_delete_inv | [= <-]];
             left; apply HP; auto.
        -- destruct Hv as [Hv%list_elem_of_delete_inv | Hv];
             left; apply HP; auto.
      * step_cases; subst; simpl in *.
        destruct Hv as [Hv%list_elem_of_delete_inv | Hv]; left; apply HP; auto.
    + right. apply elem_of_app. auto.
    + right. apply elem_of_app. auto.
Qed.

(** X10. What the summary shows is what was sent: when a run from the
    initial page ends on the success screen, a submission call carrying
    exactly the payload of the snapshot was issued on that run - whatever
    was edited while the call was in flight. *)
Theorem X10_summary_is_what_was_sent (es : list Event) (st : State)
    (out : list Effect) :
  run es initialState = Some (st, out) → showSuccessScreen st = true →
  ∃ v, submittedValues st = Some v ∧ PostCompleteKyc (build_formData v) ∈ out.
Proof.
  intros Hrun Hss.
  assert (reachable st) as (_ & _ & _ & Hshow)%reachable_Inv
    by (by exists es, out).
  destruct (Hshow Hss) as [v Hv].
  exists v. split; [done |].
  destruct (run_snapshot_sent es initialState st out (fun _ => False))
    with (v := v); try done; auto.
  intros v' [Hin | [=]]. by apply elem_of_nil in Hin.
Qed.

Lemma X10_summary_is_what_was_sent_witness :
  ∃ v,
    submittedValues
      (state_after
         (submit_trace ++ [SubmitResolved 0 (mkResponse (Some (Kyc.mk None None)))]))
      = Some v ∧
    PostCompleteKyc (build_formData v) ∈
      [PostVerifyGhanaCard "GHA-123456789-1";
       PostCompleteKyc (build_formData (values (formik (state_after submit_trace))));
       ToastSuccess "KYC Completed!"].
Proof.
  apply (X10_summary_is_what_was_sent
           (submit_trace ++ [SubmitResolved 0 (mkResponse (Some (Kyc.mk None None)))])).
  - vm_compute. reflexivity.
  - vm_compute. reflexivity.
Defined.

(** ** Going back and forth *)

(** X11. From a reachable state on step 1 or 2 with nothing loading,
    Back followed by Continue returns to the same step without any call
    and without changing a field value or the cached verification,
    provided the fields of the step gone back to are still valid - which
    for step 2 (going back to the mobile-money step) is always the
    case. *)
Theorem X11_back_then_continue (st : State) :
  reachable st → form_shown st = true → loading st = false →
  1 ≤ currentStep st →
  (currentStep st = 1 → validate 0 (values (formik st)) = ∅) →
  ∃ st', run [ClickBack; ClickContinue] st = Some (st', []) ∧
         currentStep st' = currentStep st ∧
         values (formik st') = values (formik st) ∧
         ghanaCardVerified st' = true ∧
         verificationState st' = verificationState st.
Proof.
  intros Hreach Hshown Hld Hn Hv0.
  pose proof (reachable_Inv st Hreach) as (Hrange & Hvg & _).
  pose proof (reachable_Inv2 st Hreach) as (Hgv & _ & Hv1 & _).
  destruct st as [n ld er su gv vg ge ss fn sv fk sb]; simpl in *. subst ld.
  assert (gv = true) as -> by (by apply Hgv).
  assert (vg = false) as ->.
  { destruct vg; [| done]. destruct Hvg; [done | lia]. }
  unfold form_shown in *; simpl in *. rewrite Hshown. simpl.
  rewrite bool_decide_eq_true_2 by lia. simpl.
  unfold form_shown; simpl. rewrite Hshown. simpl.
  assert (n = 1 ∨ n = 2) as [-> | ->] by lia; simpl.
  - unfold handleNext_start; simpl. change (0 `max` (1 - 1)) with 0.
    rewrite Hv0 by done. rewrite decide_True by done. simpl.
    eexists. split; [reflexivity |]. by destruct fk.
  - unfold handleNext_start; simpl. change (0 `max` (2 - 1)) with 1.
    rewrite Hv1 by lia. rewrite decide_True by done. simpl.
    eexists. split; [reflexivity |]. by destruct fk.
Qed.

Lemma X11_back_then_continue_witness :
  ∃ st', run [ClickBack; ClickContinue] (state_after (removelast submit_trace))
           = Some (st', []) ∧
         currentStep st' = currentStep (state_after (removelast submit_trace)) ∧
         values (formik st') = values (formik (state_after (removelast submit_trace))) ∧
         ghanaCardVerified st' = true ∧
         verificationState st' = verificationState (state_after (removelast submit_trace)).
Proof.
  apply (X11_back_then_continue (state_after (removelast submit_trace))).
  - apply state_after_reachable. vm_compute. eauto.
  - vm_compute. reflexivity.
  - vm_compute. reflexivity.
  - vm_compute. discriminate.
  - vm_compute. discriminate.
Defined.

(** ** A fulfilled submission without a body *)

(** X15. When a suspended submission of a page that shows the form
    fulfils with a [null] body, the page does not reach the success
    screen: reading the message throws after the name has been reset,
    the submission ends as a failure with a non-empty message shown in a
    toast, no snapshot is taken, and the handler leaves the step and the
    field values as they are. *)
Theorem X15_null_body_is_a_failure (st : State) (i : nat) (v : KycFormValues) :
  submitting st !! i = Some v → showSuccessScreen st = false →
  let r := resumed i (onSubmit_resolved v (mkResponse None) st) in
  step (SubmitResolved i (mkResponse None)) st = Some r ∧
  showSuccessScreen r.1 = false ∧
  submittedValues r.1 = submittedValues st ∧
  fullName r.1 = "" ∧
  (∃ m, m ≠ "" ∧ submissionState r.1 = SFailed m ∧ r.2 = [ToastError m]) ∧
  currentStep r.1 = currentStep st ∧
  formik r.1 = formik st ∧
  submitting r.1 = delete i (submitting st).
Proof.
  intros Hsub Hss r.
  destruct st as [n ld er su gv vg ge ss fn sv fk sb]; simpl in *. subst ss.
  subst r. unfold submissionState; simpl. rewrite Hsub. simpl.
  repeat apply conj; try done.
  eexists. repeat apply conj; [| reflexivity | reflexivity]. done.
Qed.

Lemma X15_null_body_is_a_failure_witness :
  showSuccessScreen
    (resumed 0
       (onSubmit_resolved (values (formik (state_after submit_trace)))
          (mkResponse None) (state_after submit_trace))).1 = false.
Proof.
  apply (X15_null_body_is_a_failure (state_after submit_trace) 0
           (values (formik (state_after submit_trace)))).
  - vm_compute. reflexivity.
  - vm_compute. reflexivity.
Defined.

(** ** A submission that fails on the last step *)

Lemma step_waiting (e : Event) (v : KycFormValues) (st st' : State)
    (out : list Effect) :
  waiting v st → is_submit_answer e = false → step e st = Some (st', out) →
  waiting v st' ∧ out = [] ∧ ∃ f, e = PickSelfie f.
Proof.
  destruct st as [n ld er su gv vg ge ss fn sv fk sb].
  unfold waiting, same_but_selfie; simpl.
  intros (-> & -> & -> & -> & -> & Hn & Hf & Hb & Hm) Hans Hstep.
  destruct e; try discriminate Hans; simpl in Hstep;
    unfold on_step, form_shown in Hstep; simpl in Hstep; try discriminate Hstep.
  injection Hstep as <- <-. simpl. repeat apply conj; eauto.
Qed.

Lemma run_waiting (es : list Event) (v : KycFormValues) (st st' : State)
    (out : list Effect) :
  waiting v st → forallb (fun e => negb (is_submit_answer e)) es = true →
  run es st = Some (st', out) →
  waiting v st' ∧ out = [] ∧ Forall (fun e => ∃ f, e = PickSelfie f) es.
Proof.
  revert st out. induction es as [|e es IH]; intros st out Hw Hes Hrun;
    simpl in Hrun, Hes.
  - injection Hrun as <- <-. done.
  - apply andb_true_iff in Hes as [He%negb_true_iff Hes].
    destruct (step e st) as [[st1 out1] |] eqn:Hstep; simpl in Hrun; [| done].
    destruct (run es st1) as [[st2 out2] |] eqn:Hrest; simpl in Hrun; [| done].
    injection Hrun as <- <-.
    destruct (step_waiting _ _ _ _ _ Hw He Hstep) as (Hw1 & -> & Hsel).
    destruct (IH _ _ Hw1 Hes Hrest) as (Hw2 & -> & Hall).
    split; [done |]. split; [done |]. by apply Forall_cons_2.
Qed.

(** X16. A submission is started with the submit button from a
    reachable state in which no other submission is suspended. Until its
    answer comes the page waits on step 2: whatever the user and the
    verification service do in the meantime, the only events accepted are
    changes of the selfie, and they perform no effect. When the call then
    fails, the rejection is handled on step 2: the submission state is
    Failed, nothing is suspended any more, the field values are those
    that were submitted (but for the selfie), and the submit button is
    offered again. *)
Theorem X16_button_submission_fails_on_last_step (st0 st1 st2 : State)
    (out1 out2 : list Effect) (es : list Event) (fd : FormData)
    (response : option (AxiosResponse Err.t)) (err_message : string) :
  reachable st0 → submitting st0 = [] →
  step ClickSubmit st0 = Some (st1, out1) → PostCompleteKyc fd ∈ out1 →
  forallb (fun e => negb (is_submit_answer e)) es = true →
  run es st1 = Some (st2, out2) →
  let r := resumed 0 (onSubmit_rejected (AxiosError response err_message) st2) in
  Forall (fun e => ∃ f, e = PickSelfie f) es ∧ out2 = [] ∧
  currentStep st2 = 2 ∧ submitting st2 = [values (formik st0)] ∧
  step (SubmitRejected 0 (AxiosError response err_message)) st2 = Some r ∧
  currentStep r.1 = 2 ∧
  submitting r.1 = [] ∧
  same_but_selfie (values (formik r.1)) (values (formik st0)) ∧
  submissionState r.1 = SFailed (error r.1) ∧
  step ClickSubmit r.1 = Some (handleSubmit r.1).
Proof.
  intros Hreach Hsb Hstep Hin Hes Hrun r.
  pose proof (reachable_Inv st0 Hreach) as (Hn & Hvg & Hld & Hss).
  assert (waiting (values (formik st0)) st1) as Hw.
  { destruct st0 as [n ld er su gv vg ge ss fn sv fk sb]; simpl in *. subst sb.
    unfold handleSubmit, onSubmit_start, form_shown in Hstep; simpl in Hstep.
    apply guard_Some in Hstep as [Hg Hstep].
    apply andb_true_iff in Hg as [[Hshown Hstep2%bool_decide_eq_true]%andb_true_iff
                                   Hnl%negb_true_iff].
    simpl in Hstep2. subst n ld.
    assert (vg = false) as ->.
    { destruct vg; [| done]. destruct Hvg; [done | lia]. }
    assert (ss = false) as ->.
    { destruct ss; [| done]. destruct Hss as [v ->]; [done |]. done. }
    change (Z.of_nat 3 - 1) with 2 in Hstep.
    destruct (decide (validate 2 (values fk) = ∅)) as [He | He];
      injection Hstep as <- <-; [| by apply elem_of_nil in Hin].
    unfold waiting, same_but_selfie; simpl. done. }
  destruct (run_waiting _ _ _ _ _ Hw Hes Hrun)
    as ((Hn2 & Hld2 & Hsb2 & Hvg2 & Hss2 & Hsame) & -> & Hall).
  destruct st2 as [n ld er su gv vg ge ss fn sv fk sb]; simpl in *. subst.
  assert (catch_message "Failed to complete KYC" (AxiosError response err_message) ≠ "")
    as Hne.
  { unfold catch_message, or_opt, or_str. repeat case_match; done. }
  destruct Hsame as (? & ? & ? & ?).
  subst r. unfold resumed, onSubmit_rejected, submissionState, form_shown; simpl.
  repeat apply conj; try done.
  by rewrite decide_False.
Qed.

Lemma X16_button_submission_fails_on_last_step_witness :
  currentStep
    (resumed 0
       (onSubmit_rejected (AxiosError None "Network Error")
          (state_after (submit_trace ++ [PickSelfie None])))).1 = 2.
Proof.
  eapply (X16_button_submission_fails_on_last_step
            (state_after (removelast submit_trace)) (state_after submit_trace)
            (state_after (submit_trace ++ [PickSelfie None]))
            _ _ [PickSelfie None]
            (build_formData (values (formik (state_after (removelast submit_trace)))))).
  - apply state_after_reachable. vm_compute. eauto.
  - vm_compute. reflexivity.
  - vm_compute. reflexivity.
  - apply list_elem_of_here.
  - reflexivity.
  - vm_compute. reflexivity.
Defined.

(** ** The log of registry calls *)

Section PreviewLog.
Local Open Scope list_scope.
Local Open Scope nat_scope.
Local Arguments set_seq : simpl never.

Lemma replay_app (l1 l2 : list UrlCall) (now ever : gset nat) :
  replay (l1 ++ l2) now ever =
  replay l1 now ever ≫= (fun r => replay l2 r.1 r.2).
Proof.
  revert now ever. induction l1 as [|[url | url] l1 IH]; intros now ever; simpl.
  - done.
  - case_decide; [done | apply IH].
  - case_decide; [apply IH | done].
Qed.

Lemma apply_op_replay (op : SlotOp) (p : Page) :
  page_ok p →
  replay (apply_op op p).2 (dom (live (browser p)))
    (set_seq 0 (next_url (browser p)))
  = Some (dom (live (browser (apply_op op p).1)),
          set_seq 0 (next_url (browser (apply_op op p).1))).
Proof.
  intros (Hlive & _ & _ & Hbound).
  assert (∀ slot,
            replay (revokes (handle_of p slot)) (dom (live (browser p)))
              (set_seq 0 (next_url (browser p)))
            = Some (dom (from_option (fun url => delete url (live (browser p)))
                           (live (browser p)) (handle_of p slot)),
                    set_seq 0 (next_url (browser p)))) as Hrevoke.
  { intros slot. destruct (handle_of p slot) as [u |] eqn:Hu; simpl; [| done].
    rewrite decide_True.
    - by rewrite dom_delete_L.
    - apply elem_of_dom, Hlive. eauto. }
  destruct op as [slot file | slot].
  - destruct (decide (changes p slot file)) as [Hch | Hsame].
    + rewrite apply_Assign_changed by done. simpl.
      rewrite replay_app, Hrevoke. simpl.
      destruct file as [f |]; simpl; [| done].
      rewrite decide_False by (rewrite elem_of_set_seq; lia).
      by rewrite dom_insert_L, set_seq_S_end_union_L.
    + by rewrite apply_Assign_same.
  - destruct (slots p !! slot) as [h |] eqn:Hh.
    + rewrite apply_Teardown_spec by eauto. simpl. apply Hrevoke.
    + simpl. by rewrite Hh.
Qed.

Lemma apply_ops_replay (ops : list SlotOp) (p : Page) :
  page_ok p →
  replay (apply_ops ops p).2 (dom (live (browser p)))
    (set_seq 0 (next_url (browser p)))
  = Some (dom (live (browser (apply_ops ops p).1)),
          set_seq 0 (next_url (browser (apply_ops ops p).1))).
Proof.
  revert p. induction ops as [|op ops IH]; intros p Hp; simpl; [done |].
  pose proof (apply_op_replay op p Hp) as Hop.
  pose proof (apply_op_ok op p Hp) as Hp1.
  destruct (apply_op op p) as [p1 out1]. simpl in *.
  specialize (IH p1 Hp1). destruct (apply_ops ops p1) as [p2 out2]. simpl in *.
  by rewrite replay_app, Hop.
Qed.

(** X13. Over any sequence of assignments and teardowns on any slots,
    the calls made to the URL registry form a well-bracketed log: no URL
    is created twice, a URL is revoked only while it is live (so never
    before its creation and never twice), and the URLs left live by the
    log are exactly those the registry holds at the end. *)
Theorem X13_preview_log_well_bracketed (ops : list SlotOp) :
  let r := apply_ops ops empty_page in
  replay r.2 ∅ ∅ =
    Some (dom (live (browser r.1)), set_seq 0 (next_url (browser r.1))).
Proof.
  intros r. pose proof (apply_ops_replay ops empty_page empty_page_ok) as H.
  simpl in H. by rewrite dom_empty_L in H.
Qed.

End PreviewLog.

(** ** The previews of the page *)

Section PreviewsOfThePage.
Local Open Scope list_scope.

Lemma apply_ops_app (l1 l2 : list SlotOp) (p : Page) :
  (apply_ops (l1 ++ l2) p).1 = (apply_ops l2 (apply_ops l1 p).1).1.
Proof.
  revert p. induction l1 as [|op l1 IH]; intros p; simpl; [done |].
  destruct (apply_op op p) as [p1 out1]. specialize (IH p1).
  destruct (apply_ops (l1 ++ l2) p1) as [p2 out2].
  destruct (apply_ops l1 p1) as [p3 out3]. simpl in *.
  destruct (apply_ops l2 p3). done.
Qed.

Lemma teardown_slots (slot : string) (p : Page) :
  slots (apply_op (Teardown slot) p).1 = delete slot (slots p).
Proof.
  simpl. destruct (slots p !! slot) as [h |] eqn:Hh.
  - by destruct (run_cleanup h (browser p)).
  - simpl. by rewrite delete_id.
Qed.

Lemma assign_slots (slot : string) (file : option File) (p : Page) :
  ∃ h, slots (apply_op (Assign slot file) p).1 = <[slot := h]> (slots p) ∧
       deps h = Some file.
Proof.
  simpl. unfold useFilePreview.
  destruct (decide (deps (default mounted (slots p !! slot)) = Some file)) as [Hd | Hd].
  - simpl. eauto.
  - destruct (run_cleanup _ _) as [b out]. destruct file as [f |]; simpl; eauto.
Qed.

Lemma apply_ops_cons (op : SlotOp) (l : list SlotOp) (p : Page) :
  (apply_ops (op :: l) p).1 = (apply_ops l (apply_op op p).1).1.
Proof.
  cbn [apply_ops]. destruct (apply_op op p) as [p1 out1].
  cbn [fst]. by destruct (apply_ops l p1).
Qed.

Lemma teardowns_slots (l : list string) (p : Page) (slot : string) :
  slots (apply_ops (Teardown <$> l) p).1 !! slot =
  if decide (slot ∈ l) then None else slots p !! slot.
Proof.
  revert p. induction l as [|s l IH]; intros p.
  - case_decide as Hin; [by apply elem_of_nil in Hin | done].
  - rewrite fmap_cons, apply_ops_cons, IH, teardown_slots.
    destruct (decide (slot = s)) as [-> | Hne].
    + rewrite lookup_delete_eq. rewrite (decide_True (P := s ∈ s :: l)) by left.
      by case_decide.
    + rewrite lookup_delete_ne by done.
      repeat case_decide; try done; set_solver.
Qed.

Lemma assigns_slots (l : list (string * option File)) (p : Page) (slot : string) :
  NoDup l.*1 →
  (slot ∉ l.*1 →
   slots (apply_ops ((fun sf => Assign sf.1 sf.2) <$> l) p).1 !! slot
   = slots p !! slot) ∧
  (∀ file, (slot, file) ∈ l →
   slots (apply_ops ((fun sf => Assign sf.1 sf.2) <$> l) p).1 !! slot ≫= deps
   = Some file).
Proof.
  revert p. induction l as [|[s f] l IH]; intros p Hnd.
  - split; [done | by intros file ?%elem_of_nil].
  - rewrite fmap_cons in Hnd. apply NoDup_cons in Hnd as [Hs Hnd].
    rewrite !fmap_cons, !apply_ops_cons. cbn [fst snd].
    destruct (assign_slots s f p) as (h & Hslots & Hdeps).
    destruct (IH (apply_op (Assign s f) p).1 Hnd) as [IHout IHin]. split.
    + intros Hnot. rewrite IHout by set_solver.
      rewrite Hslots, lookup_insert_ne; [done | set_solver].
    + intros file [[= -> ->] | Hin]%elem_of_cons.
      * rewrite IHout by done. rewrite Hslots, lookup_insert_eq. done.
      * by apply IHin.
Qed.

Lemma rendered_previews_NoDup (st : State) : NoDup (rendered_previews st).*1.
Proof.
  unfold rendered_previews. destruct (form_shown st); simpl.
  - repeat case_decide; simpl; repeat (apply NoDup_cons; split; [set_solver |]);
      apply NoDup_nil_2.
  - repeat (apply NoDup_cons; split; [set_solver |]). apply NoDup_nil_2.
Qed.

Lemma commit_ok (st : State) (p : Page) :
  page_ok p → page_ok (commit st p).1 ∧ previews_match st (commit st p).1.
Proof.
  intros Hp. unfold commit.
  set (gone := filter (fun slot => slot ∉ (rendered_previews st).*1)
                 (elements (dom (slots p)))).
  assert (page_ok (apply_ops
                     ((Teardown <$> gone) ++
                      ((fun sf => Assign sf.1 sf.2) <$> rendered_previews st)) p).1)
    as Hok by (by apply apply_ops_ok).
  split; [done |].
  rewrite apply_ops_app in *.
  set (p1 := (apply_ops (Teardown <$> gone) p).1) in *.
  set (p2 := (apply_ops ((fun sf => Assign sf.1 sf.2) <$> rendered_previews st) p1).1)
    in *.
  assert (∀ slot file, (slot, file) ∈ rendered_previews st →
                       slots p2 !! slot ≫= deps = Some file) as Hin.
  { intros slot file.
    destruct (assigns_slots (rendered_previews st) p1 slot
                (rendered_previews_NoDup st)) as [_ Hset].
    exact (Hset file). }
  assert (∀ slot, slot ∉ (rendered_previews st).*1 → slots p2 !! slot = None) as Hout.
  { intros slot Hnot.
    destruct (assigns_slots (rendered_previews st) p1 slot
                (rendered_previews_NoDup st)) as [Hkeep _].
    unfold p2. rewrite Hkeep by done.
    unfold p1. rewrite teardowns_slots. case_decide as Hgone; [done |].
    apply eq_None_not_Some. intros Hsome. apply Hgone.
    apply list_elem_of_filter. split; [done |].
    by apply elem_of_elements, elem_of_dom. }
  split.
  - apply set_eq. intros slot. rewrite elem_of_dom, elem_of_list_to_set. split.
    + intros Hsome. destruct (decide (slot ∈ (rendered_previews st).*1)); [done |].
      rewrite Hout in Hsome by done. by destruct Hsome.
    + intros (sf & -> & Hsf)%list_elem_of_fmap. destruct sf as [slot file].
      specialize (Hin _ _ Hsf). simpl.
      destruct (slots p2 !! slot); [eauto | done].
  - intros slot file Hsf. specialize (Hin _ _ Hsf).
    destruct (slots p2 !! slot) as [h |] eqn:Hh; [| done]. simpl in Hin.
    exists h. split; [done |].
    destruct Hok as (_ & Hslots & _). destruct (Hslots slot h Hh) as [Hprev Hfile].
    unfold file_of in Hfile. rewrite Hh in Hfile. simpl in Hfile.
    rewrite Hin in Hfile. rewrite Hprev. done.
Qed.

Lemma run_ui_ok (es : list Event) (st st' : State) (p p' : Page) :
  page_ok p → previews_match st p → run_ui es st p = Some (st', p') →
  page_ok p' ∧ previews_match st' p'.
Proof.
  revert st p. induction es as [|e es IH]; intros st p Hp Hm Hrun; simpl in Hrun.
  - by injection Hrun as <- <-.
  - destruct (step e st) as [[st1 out1] |]; simpl in Hrun; [| done].
    destruct (commit_ok st1 p Hp) as [Hp1 Hm1]. by eapply IH.
Qed.

(** X14. Along every run of the page, with a commit after each event:
    no preview handle is leaked or dangling; the mounted preview hooks
    are exactly those of the inputs on screen and of the summary; and
    each shows a live URL of the file its field (or the snapshot)
    currently holds, or nothing when there is no file. The previews of a
    step that is left are revoked with it. *)
Theorem X14_previews_follow_the_page (es : list Event) (st : State) (p : Page) :
  run_ui es initialState first_render = Some (st, p) →
  page_ok p ∧ previews_match st p.
Proof.
  intros Hrun. destruct (commit_ok initialState empty_page empty_page_ok) as [H1 H2].
  by eapply run_ui_ok.
Qed.

End PreviewsOfThePage.

Lemma X14_previews_follow_the_page_witness :
  ∃ st p,
    run_ui (fill_step0 ++ [ClickContinue; VerifyResolved verified_ok])
      initialState first_render = Some (st, p) ∧
    page_ok p ∧ previews_match st p.
Proof.
  eexists _, _. split; [vm_compute; reflexivity |].
  eapply (X14_previews_follow_the_page
            (fill_step0 ++ [ClickContinue; VerifyResolved verified_ok])).
  vm_compute. reflexivity.
Defined.
